(** * A shallow embedding of the Bitbucket Cloud client

    The client of [src/index.ts] is a thin layer over the HTTP library [got]:
    every method builds a relative URL, hands it to the transport, awaits the
    answer and reshapes it.  The embedding keeps that structure.

    - The payload types of [src/types/api.ts] are records, one module per
      interface so that the field names of the source can be kept.
    - The transport is a scripted collaborator: a [World] holds the outcomes
      the transport will still produce, in order, and the requests handed to
      it so far.  A method is a [Promise]: a function from worlds to a
      settled result and the world after it.
    - The two recursive methods take a bound on the recursion depth; a run
      that exceeds it ends in [OutOfFuel], which is neither a value nor a
      rejection.  *)

From stdpp Require Import base strings list gmap pretty.
From Stdlib Require Import Ascii ZArith Lia.

Local Open Scope Z_scope.

(** ** JavaScript values the client looks at *)

(** *** Numbers

    A JavaScript [number] is a double.  The model has the doubles that page
    numbers are made of: the integers from [-2^53] to [2^53], on which
    adding one is exact except at the top ([2^53 + 1] rounds to [2^53]) and
    which print as decimal numerals, and [NaN], which is what adding one to
    a missing value gives.  Fractions and greater magnitudes, which round
    and print in exponent notation, are not in the model. *)
Lemma clamp_in_range (z : Z) : - 2 ^ 53 <= Z.max (- 2 ^ 53) (Z.min z (2 ^ 53)) <= 2 ^ 53.
Proof. lia. Qed.

Definition safe_integer : Type := dsig (fun z : Z => - 2 ^ 53 <= z <= 2 ^ 53).

(** The integer [z] as a number of the model; beyond the range, the bound. *)
Definition safe (z : Z) : safe_integer :=
  dexist (Z.max (- 2 ^ 53) (Z.min z (2 ^ 53))) (clamp_in_range z).

Inductive number :=
  | NaN
  | Int (z : safe_integer).

(** [if (x)] on a [number]: zero and NaN are falsy. *)
Definition truthy_number (n : number) : bool :=
  match n with
  | NaN => false
  | Int z => negb (`z =? 0)
  end.

(** [x.toString()] and the interpolation of [x] in a template. *)
Definition number_toString (n : number) : string :=
  match n with
  | NaN => "NaN"
  | Int z => pretty (`z)
  end.

(** [x + 1] where [x] is a number of a response, or [undefined] when the
    response has none. *)
Definition plus_one (x : option safe_integer) : number :=
  match x with
  | Some z => Int (safe (`z + 1))
  | None => NaN
  end.

(** [if (s)] on a [string]: only the empty string is falsy. *)
Definition truthy_string (s : string) : bool :=
  match s with EmptyString => false | String _ _ => true end.

(** [if (x)] on an optional value: [undefined] is falsy. *)
Definition truthy_opt {A} (truthy : A -> bool) (x : option A) : bool :=
  match x with Some a => truthy a | None => false end.

(** The double-quote character of the repository query. *)
Definition dquote : string := String (Ascii.ascii_of_nat 34) EmptyString.

(** A decoded JSON document that the client hands on without reading it. *)
#[local] Unset Elimination Schemes.
Inductive JSON : Type :=
  | JNull
  | JBool (b : bool)
  | JNumber (n : Z)
  | JString (s : string)
  | JArray (items : list JSON)
  | JObject (fields : list (string * JSON)).
#[local] Set Elimination Schemes.

(** ** src/types/api.ts *)

Module Link.
Record t := { name : option string; href : string }.
End Link.

(** [Links<LinkTypes>]: a record from link names to links. *)
Definition Links := gmap string Link.t.

(** [page] is typed as a number, and documented as not provided in all
    responses: [None] is a response without it. *)
Module PaginatedResponse.
Record t (Values : Type) := {
  values : list Values;
  pagelen : Z;
  page : option safe_integer;
  size : Z;
  next : option string;
  previous : option string
}.
Arguments values {Values} _.
Arguments pagelen {Values} _.
Arguments page {Values} _.
Arguments size {Values} _.
Arguments next {Values} _.
Arguments previous {Values} _.
End PaginatedResponse.

(** [IDefaultReviewer = IAccount & IUser]: the fields of [IAccount] and of
    [IUser].  [GET /user] answers with the same intersection. *)
Module IDefaultReviewer.
Record t := {
  links : Links;
  created_on : option string;
  display_name : string;
  uuid : string;
  account_id : string;
  account_status : option string;
  has_2fa_enabled : option bool;
  nickname : string;
  is_staff : option bool
}.
End IDefaultReviewer.

Module IDefaultReviewerAndType.
Record t := {
  type : string;
  reviewer_type : string;
  user : IDefaultReviewer.t
}.
End IDefaultReviewerAndType.

(** [IDefaultReviewer & { reviewer_type }], the object [{ ...user, reviewer_type }]. *)
Module ReviewerWithType.
Record t := {
  user : IDefaultReviewer.t;
  reviewer_type : string
}.
Definition uuid (r : t) : string := IDefaultReviewer.uuid (user r).
End ReviewerWithType.

Module IPipelineVariable.
Record t := {
  key : string;
  value : string;
  secured : bool;
  uuid : string
}.
End IPipelineVariable.

(** Documents that only pass through the client. *)
Definition IRepository := JSON.
Definition ICodeSearchResult := JSON.
Definition IWorkspace := JSON.
Definition IPullRequest := JSON.

(** ** Requests and responses *)

Inductive Method := GET | POST | PUT | DELETE.

Global Instance Method_eq_dec : EqDecision Method.
Proof. solve_decision. Defined.

Inductive ResponseType := json | text.

Module BranchRef.
(** [{ branch: { name } }] *)
Record t := { branch_name : string }.
End BranchRef.

Module VariableBody.
(** The [json] option of a variable write; [uuid] is present on update only. *)
Record t := {
  type : string;
  uuid : option string;
  key : string;
  value : string;
  secured : bool
}.
End VariableBody.

Module PullRequestBody.
(** The [json] option of [createPullRequest].  A property whose value is
    [undefined] is left out of the serialised document: [None] below. *)
Record t := {
  title : string;
  source : BranchRef.t;
  destination : option BranchRef.t;
  reviewers : list ReviewerWithType.t;
  close_source_branch : bool
}.
End PullRequestBody.

(** What a request carries: the [json] option or a multipart form as [body]. *)
Inductive Payload :=
  | JsonVariable (b : VariableBody.t)
  | JsonPullRequest (b : PullRequestBody.t)
  | FormData (fields : list (string * string)).

Module Request.
Record t := {
  method : Method;
  url : string;
  payload : option Payload;
  responseType : ResponseType
}.
End Request.

(** The body of a response, decoded as the [Responses] table types it
    (or left as text when the request asked for text). *)
Inductive Body :=
  | BText (s : string)
  | BRepositories (r : PaginatedResponse.t IRepository)
  | BEffectiveDefaultReviewers (r : PaginatedResponse.t IDefaultReviewerAndType.t)
  | BVariables (r : PaginatedResponse.t IPipelineVariable.t)
  | BVariable (v : IPipelineVariable.t)
  | BPullRequest (p : IPullRequest)
  | BUser (u : IDefaultReviewer.t)
  | BWorkspace (w : IWorkspace)
  | BCodeSearch (r : PaginatedResponse.t ICodeSearchResult).

Module Response.
Record t := {
  statusCode : Z;
  headers : gmap string string;
  body : Body
}.
End Response.

(** An error of the transport.  [response] is set when the failure carries
    the server's answer (an [HTTPError]) and unset for a network failure. *)
Module Error.
Record t := {
  name : string;
  response : option Response.t
}.
End Error.

(** ** The transport and the promise monad *)

Inductive Outcome :=
  | Fulfil (r : Response.t)
  | Reject (e : Error.t).

Record World := {
  pending : list Outcome;
  issued : list Request.t
}.

Inductive Result (A : Type) :=
  | Resolved (a : A)
  | Rejected (e : Error.t)
  | OutOfFuel.
Arguments Resolved {A} a.
Arguments Rejected {A} e.
Arguments OutOfFuel {A}.

Definition Promise (A : Type) : Type := World -> Result A * World.

Definition resolve {A} (a : A) : Promise A := fun w => (Resolved a, w).
Definition reject {A} (e : Error.t) : Promise A := fun w => (Rejected e, w).
Definition diverge {A} : Promise A := fun w => (OutOfFuel, w).

(** [await p] followed by the rest of an [async] body. *)
Definition await {A B} (p : Promise A) (k : A -> Promise B) : Promise B :=
  fun w =>
    match p w with
    | (Resolved a, w') => k a w'
    | (Rejected e, w') => (Rejected e, w')
    | (OutOfFuel, w') => (OutOfFuel, w')
    end.

(** [p.catch(handler)] *)
Definition catch {A} (p : Promise A) (handler : Error.t -> Promise A) : Promise A :=
  fun w =>
    match p w with
    | (Rejected e, w') => handler e w'
    | settled => settled
    end.

Notation "x <- p ;; k" := (await p (fun x => k))
  (at level 100, p at next level, right associativity).

(** The transport has nothing left to answer with. *)
Definition network_error : Error.t :=
  {| Error.name := "RequestError"; Error.response := None |}.

(** What becomes of a body that is not of the shape the caller's type
    annotation names.  TypeScript checks nothing at run time, so this stands
    for whatever JavaScript then does; the statements below are about bodies
    of the right shape. *)
Definition shape_error : Error.t :=
  {| Error.name := "TypeError"; Error.response := None |}.

(** [this.client(url, options)]: record the request, take the next outcome. *)
Definition client (method : Method) (url : string) (payload : option Payload)
    (responseType : ResponseType) : Promise Response.t :=
  fun w =>
    let rq := {| Request.method := method; Request.url := url;
                 Request.payload := payload;
                 Request.responseType := responseType |} in
    match pending w with
    | [] => (Rejected network_error, {| pending := []; issued := issued w ++ [rq] |})
    | Fulfil r :: rest => (Resolved r, {| pending := rest; issued := issued w ++ [rq] |})
    | Reject e :: rest => (Rejected e, {| pending := rest; issued := issued w ++ [rq] |})
    end.

(** [promise.json<T>()]: the decoded body, read at the type the caller names. *)
Definition json_as {A} (view : Body -> option A) (p : Promise Response.t) : Promise A :=
  res <- p ;;
  match view (Response.body res) with
  | Some a => resolve a
  | None => reject shape_error
  end.

(** [res.body] of a request made with [responseType: 'text']. *)
Definition text_body (res : Response.t) : Promise string :=
  match Response.body res with
  | BText s => resolve s
  | _ => reject shape_error
  end.

Definition as_repositories (b : Body) := match b with BRepositories r => Some r | _ => None end.
Definition as_effective_default_reviewers (b : Body) :=
  match b with BEffectiveDefaultReviewers r => Some r | _ => None end.
Definition as_variables (b : Body) := match b with BVariables r => Some r | _ => None end.
Definition as_variable (b : Body) := match b with BVariable v => Some v | _ => None end.
Definition as_pullrequest (b : Body) := match b with BPullRequest p => Some p | _ => None end.
Definition as_user (b : Body) := match b with BUser u => Some u | _ => None end.
Definition as_workspace (b : Body) := match b with BWorkspace w => Some w | _ => None end.
Definition as_code_search (b : Body) := match b with BCodeSearch r => Some r | _ => None end.

(** ** Platform functions the client calls *)

(** [s.split(sep)] for a one-character separator: never an empty array. *)
Fixpoint split (sep : ascii) (s : string) : list string :=
  match s with
  | EmptyString => [EmptyString]
  | String c rest =>
      if Ascii.eqb c sep then EmptyString :: split sep rest
      else match split sep rest with
           | seg :: segs => String c seg :: segs
           | [] => [String c EmptyString]
           end
  end.

(** [segments.join(sep)] *)
Fixpoint join (sep : string) (segments : list string) : string :=
  match segments with
  | [] => EmptyString
  | [seg] => seg
  | seg :: rest => seg +:+ sep +:+ join sep rest
  end.

(** [array.at(-1)] is [last]; [x ?? d] is [default d x]. *)

(** [posix.resolve('/', p)]: the segments of [p] walked from the root, empty
    and [.] segments dropped, [..] stepping up but never above the root. *)
Definition resolve_segment (resolved : list string) (seg : string) : list string :=
  if bool_decide (seg = "" \/ seg = ".") then resolved
  else if bool_decide (seg = "..") then removelast resolved
  else resolved ++ [seg].

Definition posix_resolve_root (p : string) : string :=
  "/" +:+ join "/" (fold_left resolve_segment (split "/"%char p) []).

(** [new URLSearchParams(...).toString()]: the form-urlencoded serialisation
    of the bytes of each name and value. *)
Definition hex_digit (n : N) : ascii :=
  if (n <? 10)%N then ascii_of_N (48 + n) else ascii_of_N (55 + n).

Definition form_safe (c : ascii) : bool :=
  let n := N_of_ascii c in
  ((48 <=? n) && (n <=? 57) || (65 <=? n) && (n <=? 90) || (97 <=? n) && (n <=? 122)
   || (n =? 42) || (n =? 45) || (n =? 46) || (n =? 95))%N.

Fixpoint form_urlencode (s : string) : string :=
  match s with
  | EmptyString => EmptyString
  | String c rest =>
      if form_safe c then String c (form_urlencode rest)
      else if Ascii.eqb c " "%char then String "+"%char (form_urlencode rest)
      else String "%"%char (String (hex_digit (N_of_ascii c / 16))
                         (String (hex_digit (N_of_ascii c mod 16)) (form_urlencode rest)))
  end.

Definition URLSearchParams := list (string * string).

Definition URLSearchParams_toString (params : URLSearchParams) : string :=
  join "&" (map (fun '(k, v) => form_urlencode k +:+ "=" +:+ form_urlencode v) params).

(** ** src/index.ts: the methods of [BitbucketClient] *)

Definition getCurrentUser : Promise IDefaultReviewer.t :=
  json_as as_user (client GET "user" None json).

Definition getWorkspace (workspace : string) : Promise IWorkspace :=
  json_as as_workspace (client GET ("workspaces/" +:+ workspace +:+ "}") None json).

(** The URL of one page of the repository listing. *)
Definition repositories_url (workspace projectKey : string) (requestPage : option number)
    : string :=
  ("repositories/" +:+ workspace +:+ "?q=project.key=" +:+ dquote +:+ projectKey +:+ dquote)
  +:+ (match requestPage with
       | Some p => if truthy_number p then "&page=" +:+ number_toString p else ""
       | None => ""
       end).

Fixpoint getRepositoriesByProject (fuel : nat) (workspace projectKey : string)
    (requestPage : option number) : Promise (list IRepository) :=
  match fuel with
  | O => diverge
  | S fuel =>
      res <- json_as as_repositories
               (client GET (repositories_url workspace projectKey requestPage) None json) ;;
      let values := PaginatedResponse.values res in
      let next := PaginatedResponse.next res in
      let currentPage := PaginatedResponse.page res in
      if truthy_opt truthy_string next then
        following <- getRepositoriesByProject fuel workspace projectKey
                       (Some (plus_one currentPage)) ;;
        resolve (values ++ following)
      else resolve values
  end.

Definition getEffectiveDefaultReviewers (workspace repoSlug : string)
    : Promise (list ReviewerWithType.t) :=
  res <- json_as as_effective_default_reviewers
           (client GET ("repositories/" +:+ workspace +:+ "/" +:+ repoSlug
                        +:+ "/effective-default-reviewers") None json) ;;
  resolve (map (fun x => {| ReviewerWithType.user := IDefaultReviewerAndType.user x;
                            ReviewerWithType.reviewer_type :=
                              IDefaultReviewerAndType.reviewer_type x |})
               (PaginatedResponse.values res)).

Definition variables_url (workspace repoSlug : string) : string :=
  "repositories/" +:+ workspace +:+ "/" +:+ repoSlug +:+ "/pipelines_config/variables".

Definition getRepoVariables (workspace repoSlug : string) : Promise (list IPipelineVariable.t) :=
  res <- json_as as_variables (client GET (variables_url workspace repoSlug) None json) ;;
  resolve (PaginatedResponse.values res).

Definition createRepoVariable (workspace repoSlug varName varValue : string)
    : Promise IPipelineVariable.t :=
  json_as as_variable
    (client POST (variables_url workspace repoSlug)
       (Some (JsonVariable {| VariableBody.type := "pipeline_variable";
                              VariableBody.uuid := None;
                              VariableBody.key := varName;
                              VariableBody.value := varValue;
                              VariableBody.secured := true |}))
       json).

Definition updateRepoVariable (workspace repoSlug varUuid varName varValue : string)
    : Promise IPipelineVariable.t :=
  json_as as_variable
    (client PUT (variables_url workspace repoSlug +:+ "/" +:+ varUuid)
       (Some (JsonVariable {| VariableBody.type := "pipeline_variable";
                              VariableBody.uuid := Some varUuid;
                              VariableBody.key := varName;
                              VariableBody.value := varValue;
                              VariableBody.secured := true |}))
       json).

(** [repoVars.find(({ key }) => key === varName)] *)
Definition find_by_key (varName : string) (repoVars : list IPipelineVariable.t)
    : option IPipelineVariable.t :=
  List.find (fun v => String.eqb (IPipelineVariable.key v) varName) repoVars.

Definition setRepoVariable (workspace repoSlug varName varValue : string)
    : Promise IPipelineVariable.t :=
  repoVars <- getRepoVariables workspace repoSlug ;;
  match find_by_key varName repoVars with
  | None => createRepoVariable workspace repoSlug varName varValue
  | Some existingVariable =>
      updateRepoVariable workspace repoSlug (IPipelineVariable.uuid existingVariable)
        varName varValue
  end.

(** Resolves to [null] ([None]) or to the response of the DELETE. *)
Definition deleteRepoVariable (workspace repoSlug varName : string)
    : Promise (option Response.t) :=
  repoVars <- getRepoVariables workspace repoSlug ;;
  match find_by_key varName repoVars with
  | None => resolve None
  | Some variableProps =>
      res <- client DELETE (variables_url workspace repoSlug +:+ "/"
                            +:+ IPipelineVariable.uuid variableProps) None json ;;
      resolve (Some res)
  end.

Definition createPullRequest (workspace repoSlug title sourceBranch : string)
    (destinationBranch : option string) : Promise IPullRequest :=
  currentUser <- getCurrentUser ;;
  effective <- getEffectiveDefaultReviewers workspace repoSlug ;;
  let defaultReviewers :=
    List.filter (fun reviewer =>
                   negb (String.eqb (IDefaultReviewer.uuid currentUser)
                                    (ReviewerWithType.uuid reviewer)))
                effective in
  let destination :=
    match destinationBranch with
    | Some b => if truthy_string b then Some {| BranchRef.branch_name := b |} else None
    | None => None
    end in
  json_as as_pullrequest
    (client POST ("repositories/" +:+ workspace +:+ "/" +:+ repoSlug +:+ "/pullrequests")
       (Some (JsonPullRequest
                {| PullRequestBody.title := title;
                   PullRequestBody.source := {| BranchRef.branch_name := sourceBranch |};
                   PullRequestBody.destination := destination;
                   PullRequestBody.reviewers := defaultReviewers;
                   PullRequestBody.close_source_branch := true |}))
       json).

Definition file_url (workspace repoSlug commitOrRef filePath : string) : string :=
  let absolutePath := posix_resolve_root filePath in
  "repositories/" +:+ workspace +:+ "/" +:+ repoSlug +:+ "/src/" +:+ commitOrRef
  +:+ absolutePath.

(** Resolves to the text of the file, or to [null] ([None]) on a 404. *)
Definition getFile (workspace repoSlug commitOrRef filePath : string)
    : Promise (option string) :=
  catch
    (res <- client GET (file_url workspace repoSlug commitOrRef filePath) None text ;;
     body <- text_body res ;;
     resolve (Some body))
    (fun err =>
       match Error.response err with
       | Some response =>
           if Response.statusCode response =? 404 then resolve None else reject err
       | None => reject err
       end).

(** [form.append(name, value)] under [if (value)], for an optional argument. *)
Definition append_if_truthy (name : string) (value : option string)
    (form : list (string * string)) : list (string * string) :=
  match value with
  | Some v => if truthy_string v then form ++ [(name, v)] else form
  | None => form
  end.

(** [res.headers?.location?.split('/')?.at(-1) ?? '<unknown>'] *)
Definition commitHash (res : Response.t) : string :=
  default "<unknown>"
    (location ← Response.headers res !! "location"; last (split "/"%char location)).

Definition commitFile (workspace repoSlug filePath contents : string)
    (message author branch : option string) : Promise string :=
  let message := default "Posted a file via API" message in
  let form := [(filePath, contents)] in
  let form := append_if_truthy "message" (Some message) form in
  let form := append_if_truthy "author" author form in
  let form := append_if_truthy "branch" branch form in
  res <- client POST ("repositories/" +:+ workspace +:+ "/" +:+ repoSlug +:+ "/src")
           (Some (FormData form)) json ;;
  resolve (commitHash res).

Definition removeFile (workspace repoSlug filePath : string)
    (message author branch : option string) : Promise string :=
  let message := default "Removed a file via API" message in
  let form := [("files", filePath)] in
  let form := append_if_truthy "message" (Some message) form in
  let form := append_if_truthy "author" author form in
  let form := append_if_truthy "branch" branch form in
  res <- client POST ("repositories/" +:+ workspace +:+ "/" +:+ repoSlug +:+ "/src")
           (Some (FormData form)) json ;;
  resolve (commitHash res).

(** The URL of one page of a code search. *)
Definition code_search_url (workspace query : string) (requestPage : option number)
    : string :=
  let queryparams : URLSearchParams :=
    [("search_query", query); ("fields", "+values.file.commit.repository")] in
  let queryparams :=
    match requestPage with
    | Some p =>
        if truthy_number p then queryparams ++ [("page", number_toString p)] else queryparams
    | None => queryparams
    end in
  "workspaces/" +:+ workspace +:+ "/search/code?" +:+ URLSearchParams_toString queryparams.

Fixpoint codeSearch (fuel : nat) (workspace query : string) (requestPage : option number)
    : Promise (list ICodeSearchResult) :=
  match fuel with
  | O => diverge
  | S fuel =>
      res <- json_as as_code_search
               (client GET (code_search_url workspace query requestPage) None json) ;;
      let values := PaginatedResponse.values res in
      let next := PaginatedResponse.next res in
      let currentPage := PaginatedResponse.page res in
      if truthy_opt truthy_string next then
        following <- codeSearch fuel workspace query (Some (plus_one currentPage)) ;;
        resolve (values ++ following)
      else resolve values
  end.

(** ** Vocabulary of the statements *)

(** A plain GET, as every listing issues it. *)
Definition get_request (url : string) : Request.t :=
  {| Request.method := GET; Request.url := url;
     Request.payload := None; Request.responseType := json |}.

(** The envelope carries a [next] link that the client follows. *)
Definition has_next {A} (p : PaginatedResponse.t A) : bool :=
  truthy_opt truthy_string (PaginatedResponse.next p).

(** A sequence of pages as a paginated endpoint serves it: every page but the
    last links to a next one and announces a page number whose successor
    can be asked for (the number is there and is not -1); the last page has
    no link. *)
Fixpoint linked {A} (pages : list (PaginatedResponse.t A)) : Prop :=
  match pages with
  | [] => False
  | [p] => has_next p = false
  | p :: rest =>
      has_next p = true
      /\ truthy_number (plus_one (PaginatedResponse.page p)) = true
      /\ linked rest
  end.

(** A sequence of pages held together by [next] links alone: every page but
    the last has one, the last has none; nothing is asked of the numbers. *)
Fixpoint chained {A} (pages : list (PaginatedResponse.t A)) : Prop :=
  match pages with
  | [] => False
  | [p] => has_next p = false
  | p :: rest => has_next p = true /\ chained rest
  end.

(** The page parameters of the requests that fetch a sequence of pages,
    when the first request is made with [requestPage]. *)
Definition page_parameters {A} (requestPage : option number)
    (pages : list (PaginatedResponse.t A)) : list (option number) :=
  requestPage :: map (fun p => Some (plus_one (PaginatedResponse.page p))) (removelast pages).

(** The common shape of [getRepositoriesByProject] and [codeSearch], used to
    prove facts about both at once. *)
Section Aggregator.
Context {A : Type}.
Variable view : Body -> option (PaginatedResponse.t A).
Variable url : option number -> string.

Fixpoint paginated (fuel : nat) (requestPage : option number) : Promise (list A) :=
  match fuel with
  | O => diverge
  | S fuel =>
      res <- json_as view (client GET (url requestPage) None json) ;;
      if has_next res then
        following <- paginated fuel (Some (plus_one (PaginatedResponse.page res))) ;;
        resolve (PaginatedResponse.values res ++ following)
      else resolve (PaginatedResponse.values res)
  end.
End Aggregator.

(** The character occurs in the string. *)
Fixpoint contains (c : ascii) (s : string) : bool :=
  match s with
  | EmptyString => false
  | String c' rest => Ascii.eqb c' c || contains c rest
  end.

(** The request carries a pipeline variable whose [secured] flag is set. *)
Definition writes_secured (rq : Request.t) : Prop :=
  exists b, Request.payload rq = Some (JsonVariable b) /\ VariableBody.secured b = true.

(** ** Sample data *)

Module Sample.
(** An envelope that announces the page number [page]. *)
Definition envelope {A} (values : list A) (page : Z) (next : option string)
    : PaginatedResponse.t A :=
  {| PaginatedResponse.values := values;
     PaginatedResponse.pagelen := 10;
     PaginatedResponse.page := Some (safe page);
     PaginatedResponse.size := 3;
     PaginatedResponse.next := next;
     PaginatedResponse.previous := None |}.

Definition ok (body : Body) : Response.t :=
  {| Response.statusCode := 200; Response.headers := ∅; Response.body := body |}.

Definition created (location : string) : Response.t :=
  {| Response.statusCode := 201;
     Response.headers := {[ "location" := location ]};
     Response.body := BText "" |}.

Definition status (code : Z) : Error.t :=
  {| Error.name := "HTTPError";
     Error.response := Some {| Response.statusCode := code;
                               Response.headers := ∅;
                               Response.body := BText "" |} |}.

Definition account (uuid name : string) : IDefaultReviewer.t :=
  {| IDefaultReviewer.links := ∅;
     IDefaultReviewer.created_on := None;
     IDefaultReviewer.display_name := name;
     IDefaultReviewer.uuid := uuid;
     IDefaultReviewer.account_id := uuid;
     IDefaultReviewer.account_status := None;
     IDefaultReviewer.has_2fa_enabled := None;
     IDefaultReviewer.nickname := name;
     IDefaultReviewer.is_staff := None |}.

Definition alice := account "{a}" "Alice".
Definition bob := account "{b}" "Bob".
Definition me := account "{me}" "Me".

Definition default_reviewer (user : IDefaultReviewer.t) : IDefaultReviewerAndType.t :=
  {| IDefaultReviewerAndType.type := "default_reviewer_and_type";
     IDefaultReviewerAndType.reviewer_type := "repository";
     IDefaultReviewerAndType.user := user |}.

Definition reviewer (user : IDefaultReviewer.t) : ReviewerWithType.t :=
  {| ReviewerWithType.user := user; ReviewerWithType.reviewer_type := "repository" |}.

Definition variable (key uuid : string) : IPipelineVariable.t :=
  {| IPipelineVariable.key := key;
     IPipelineVariable.value := "";
     IPipelineVariable.secured := true;
     IPipelineVariable.uuid := uuid |}.

(** Three pages of repositories and of search results, numbered from 1. *)
Definition three_pages : list (PaginatedResponse.t JSON) :=
  [envelope [JString "r1"; JString "r2"] 1 (Some "https://api.bitbucket.org/2.0/next?page=2");
   envelope [JString "r3"] 2 (Some "https://api.bitbucket.org/2.0/next?page=3");
   envelope [JString "r4"] 3 None].

(** Two pages of effective default reviewers. *)
Definition reviewer_pages : list (PaginatedResponse.t IDefaultReviewerAndType.t) :=
  [envelope [default_reviewer alice] 1 (Some "https://api.bitbucket.org/2.0/next?page=2");
   envelope [default_reviewer bob] 2 None].

Definition world (script : list Outcome) : World :=
  {| pending := script; issued := [] |}.
End Sample.

(** ** A further method and further vocabulary *)

(** The DELETE is awaited and its response dropped: the method resolves to
    nothing. *)
Definition removeDefaultReviewer (workspace repoSlug targetUser : string) : Promise unit :=
  ignored <- client DELETE ("repositories/" +:+ workspace +:+ "/" +:+ repoSlug
                            +:+ "/default-reviewers/" +:+ targetUser) None json ;;
  resolve tt.

(** The run of [p] from [w] hands exactly [n] requests to the transport, after
    the ones already issued and without touching those. *)
Definition issues {A} (p : Promise A) (w : World) (n : nat) : Prop :=
  exists requests,
    issued (snd (p w)) = issued w ++ requests /\ length requests = n.

(** A path segment that names something: not empty, not [.] or [..], and
    without a slash inside. *)
Definition clean_segment (seg : string) : Prop :=
  seg <> "" /\ seg <> "." /\ seg <> ".." /\ contains "/" seg = false.

(** The POST of [commitFile] and [removeFile] with a given form. *)
Definition src_post (workspace repoSlug : string) (form : list (string * string))
    : Request.t :=
  {| Request.method := POST;
     Request.url := "repositories/" +:+ workspace +:+ "/" +:+ repoSlug +:+ "/src";
     Request.payload := Some (FormData form);
     Request.responseType := json |}.

Module Scenario.
Definition listing (variables : list IPipelineVariable.t) : Response.t :=
  Sample.ok (BVariables (Sample.envelope variables 1 None)).

Definition other := Sample.variable "OTHER" "{u0}".
Definition token := Sample.variable "TOKEN" "{u1}".

(** A page that links on but numbers itself -1. *)
Definition unnumbered : PaginatedResponse.t JSON :=
  Sample.envelope [JString "r1"] (-1) (Some "https://api.bitbucket.org/2.0/next").

(** A page that links on but has no number. *)
Definition numberless : PaginatedResponse.t JSON :=
  {| PaginatedResponse.values := [JString "r1"];
     PaginatedResponse.pagelen := 10;
     PaginatedResponse.page := None;
     PaginatedResponse.size := 2;
     PaginatedResponse.next := Some "https://api.bitbucket.org/2.0/next";
     PaginatedResponse.previous := None |}.

(** A page whose [next] is the empty string. *)
Definition blank_next : PaginatedResponse.t JSON :=
  Sample.envelope [JString "r1"] 1 (Some "").

Definition last_page : PaginatedResponse.t JSON :=
  Sample.envelope [JString "r9"] 2 None.
End Scenario.

(** * Properties *)

(** ** Strings *)

Lemma append_cons (c : ascii) (s t : string) : String c s +:+ t = String c (s +:+ t).
Proof. reflexivity. Qed.

Lemma append_nil_r (s : string) : s +:+ "" = s.
Proof. induction s as [|c s IH]; [reflexivity | rewrite append_cons; congruence]. Qed.

Lemma append_assoc (s1 s2 s3 : string) : (s1 +:+ s2) +:+ s3 = s1 +:+ (s2 +:+ s3).
Proof. induction s1 as [|c s1 IH]; [reflexivity | rewrite !append_cons; congruence]. Qed.

Lemma length_append (s1 s2 : string) :
  String.length (s1 +:+ s2) = (String.length s1 + String.length s2)%nat.
Proof. induction s1 as [|c s1 IH]; [reflexivity | rewrite append_cons; simpl; congruence]. Qed.

(** ** Running promises *)

Lemma client_fulfil method url payload rt r rest log :
  client method url payload rt {| pending := Fulfil r :: rest; issued := log |}
  = (Resolved r,
     {| pending := rest;
        issued := log ++ [{| Request.method := method; Request.url := url;
                             Request.payload := payload;
                             Request.responseType := rt |}] |}).
Proof. reflexivity. Qed.

Lemma json_as_fulfil {A} (view : Body -> option A) method url payload rt r a rest log :
  view (Response.body r) = Some a ->
  json_as view (client method url payload rt)
    {| pending := Fulfil r :: rest; issued := log |}
  = (Resolved a,
     {| pending := rest;
        issued := log ++ [{| Request.method := method; Request.url := url;
                             Request.payload := payload;
                             Request.responseType := rt |}] |}).
Proof. intros Hview. unfold json_as, await. rewrite client_fulfil, Hview. reflexivity. Qed.

(** A request to the transport settles, logs itself and takes at most the
    first pending outcome. *)
Lemma client_step method url payload rt w :
  exists res,
    client method url payload rt w
    = (res, {| pending := tail (pending w);
               issued := issued w ++ [{| Request.method := method; Request.url := url;
                                         Request.payload := payload;
                                         Request.responseType := rt |}] |})
    /\ res <> OutOfFuel.
Proof.
  unfold client. destruct (pending w) as [|[r|e] rest]; eexists; split;
    try reflexivity; discriminate.
Qed.

Lemma json_as_step {A} (view : Body -> option A) method url payload rt w :
  exists res,
    json_as view (client method url payload rt) w
    = (res, {| pending := tail (pending w);
               issued := issued w ++ [{| Request.method := method; Request.url := url;
                                         Request.payload := payload;
                                         Request.responseType := rt |}] |})
    /\ res <> OutOfFuel.
Proof.
  destruct (client_step method url payload rt w) as (res & Hrun & Hres).
  unfold json_as, await. rewrite Hrun.
  destruct res as [r|e|]; [|eexists; split; [reflexivity|discriminate]|congruence].
  destruct (view (Response.body r)); eexists; (split; [reflexivity|discriminate]).
Qed.

(** ** The aggregator *)

Section AggregatorFacts.
Context {A : Type}.
Variable view : Body -> option (PaginatedResponse.t A).
Variable url : option number -> string.

(** A page without a [next] link ends the recursion at once. *)
Lemma paginated_last_page fuel requestPage r p rest log :
  view (Response.body r) = Some p ->
  has_next p = false ->
  paginated view url (S fuel) requestPage
    {| pending := Fulfil r :: rest; issued := log |}
  = (Resolved (PaginatedResponse.values p),
     {| pending := rest; issued := log ++ [get_request (url requestPage)] |}).
Proof.
  intros Hview Hnext. simpl. unfold await at 1.
  rewrite (json_as_fulfil view _ _ _ _ r p) by exact Hview.
  rewrite Hnext. reflexivity.
Qed.

(** Enough fuel for the pages at hand: one request per page, the values
    concatenated in the order of the pages. *)
Lemma paginated_linked pages :
  linked pages ->
  forall responses rest log fuel requestPage,
    Forall2 (fun r p => view (Response.body r) = Some p) responses pages ->
    (length pages <= fuel)%nat ->
    paginated view url fuel requestPage
      {| pending := map Fulfil responses ++ rest; issued := log |}
    = (Resolved (concat (map PaginatedResponse.values pages)),
       {| pending := rest;
          issued := log ++ map (fun q => get_request (url q))
                               (page_parameters requestPage pages) |}).
Proof.
  induction pages as [|p pages IH]; [intros []|].
  intros Hlinked responses rest log fuel requestPage Hresp Hfuel.
  destruct responses as [|r responses]; [inversion Hresp|].
  apply Forall2_cons_1 in Hresp as [Hr Hresp].
  destruct fuel as [|fuel]; [simpl in Hfuel; lia|].
  destruct pages as [|p' pages].
  - apply Forall2_nil_inv_r in Hresp as ->. cbn [map app].
    rewrite (paginated_last_page fuel requestPage r p) by assumption.
    simpl. now rewrite app_nil_r.
  - destruct Hlinked as (Hnext & _ & Hlinked).
    cbn [paginated map app]. unfold await at 1.
    rewrite (json_as_fulfil view _ _ _ _ r p) by exact Hr.
    rewrite Hnext. unfold await at 1.
    rewrite (IH Hlinked responses rest _ fuel _ Hresp) by (simpl in *; lia).
    unfold resolve, page_parameters.
    change (removelast (p :: p' :: pages)) with (p :: removelast (p' :: pages)).
    cbn [map concat]. rewrite <- app_assoc. reflexivity.
Qed.

Lemma paginated_unfold fuel requestPage w :
  paginated view url (S fuel) requestPage w
  = match json_as view (client GET (url requestPage) None json) w with
    | (Resolved res, w') =>
        if has_next res then
          match paginated view url fuel (Some (plus_one (PaginatedResponse.page res))) w' with
          | (Resolved following, w'') =>
              (Resolved (PaginatedResponse.values res ++ following), w'')
          | (Rejected e, w'') => (Rejected e, w'')
          | (OutOfFuel, w'') => (OutOfFuel, w'')
          end
        else (Resolved (PaginatedResponse.values res), w')
    | (Rejected e, w') => (Rejected e, w')
    | (OutOfFuel, w') => (OutOfFuel, w')
    end.
Proof.
  cbn [paginated]. unfold await at 1.
  destruct (json_as view _ w) as [[res|e|] w']; try reflexivity.
  destruct (has_next res); reflexivity.
Qed.

(** Once the script holds a page without a [next] link, a run with more
    fuel than there are outcomes before that page settles: it uses at most
    one request per outcome up to that page and takes nothing behind it. *)
Lemma paginated_settles before :
  forall r p rest log fuel requestPage,
    view (Response.body r) = Some p ->
    has_next p = false ->
    (length before < fuel)%nat ->
    let run := paginated view url fuel requestPage
                 {| pending := before ++ Fulfil r :: rest; issued := log |} in
    fst run <> OutOfFuel
    /\ (length (issued (snd run)) <= length log + length before + 1)%nat
    /\ rest `suffix_of` pending (snd run).
Proof.
  induction before as [|o before IH];
    intros r p rest log fuel requestPage Hview Hnext Hfuel run; subst run.
  - destruct fuel as [|fuel]; [simpl in Hfuel; lia|].
    cbn [app]. rewrite (paginated_last_page fuel requestPage r p) by assumption.
    cbn [fst snd issued pending]. rewrite length_app. simpl.
    split; [discriminate|]. split; [lia|]. reflexivity.
  - destruct fuel as [|fuel]; [simpl in Hfuel; lia|].
    assert (Hfuel' : (length before < fuel)%nat) by (simpl in Hfuel; lia).
    assert (Hsuffix : rest `suffix_of` before ++ Fulfil r :: rest)
      by (exists (before ++ [Fulfil r]); now rewrite <- app_assoc).
    rewrite paginated_unfold.
    destruct (json_as_step view GET (url requestPage) None json
                {| pending := (o :: before) ++ Fulfil r :: rest; issued := log |})
      as (res & Hrun & Hres).
    rewrite Hrun. cbn [pending issued app tail].
    destruct res as [p0|e|]; [| |congruence].
    + destruct (has_next p0).
      * specialize (IH r p rest
                      (log ++ [{| Request.method := GET; Request.url := url requestPage;
                                  Request.payload := None;
                                  Request.responseType := json |}])
                      fuel (Some (plus_one (PaginatedResponse.page p0))) Hview Hnext Hfuel').
        cbv zeta in IH.
        destruct (paginated view url fuel (Some (plus_one (PaginatedResponse.page p0))) _)
          as [[following|e|] w'].
        all: cbn [fst snd] in *.
        all: destruct IH as (Hsettled & Hlen & Hrest).
        all: rewrite length_app in Hlen; simpl in Hlen |- *.
        all: split; [congruence|]; split; [lia|exact Hrest].
      * cbn [fst snd issued pending]. rewrite length_app. simpl.
        split; [discriminate|]. split; [lia|]. exact Hsuffix.
    + cbn [fst snd issued pending]. rewrite length_app. simpl.
      split; [discriminate|]. split; [lia|]. exact Hsuffix.
Qed.
End AggregatorFacts.

Lemma getRepositoriesByProject_paginated fuel workspace projectKey :
  forall requestPage w,
    getRepositoriesByProject fuel workspace projectKey requestPage w
    = paginated as_repositories (repositories_url workspace projectKey) fuel requestPage w.
Proof.
  induction fuel as [|fuel IH]; intros requestPage w; [reflexivity|].
  cbn [getRepositoriesByProject paginated]. unfold await at 1 3.
  destruct (json_as as_repositories _ w) as [[res|e|] w']; try reflexivity.
  unfold has_next. destruct (truthy_opt _ _); [|reflexivity].
  unfold await. now rewrite IH.
Qed.

Lemma codeSearch_paginated fuel workspace query :
  forall requestPage w,
    codeSearch fuel workspace query requestPage w
    = paginated as_code_search (code_search_url workspace query) fuel requestPage w.
Proof.
  induction fuel as [|fuel IH]; intros requestPage w; [reflexivity|].
  cbn [codeSearch paginated]. unfold await at 1 3.
  destruct (json_as as_code_search _ w) as [[res|e|] w']; try reflexivity.
  unfold has_next. destruct (truthy_opt _ _); [|reflexivity].
  unfold await. now rewrite IH.
Qed.

(** ** The URLs of the two paginated listings *)

Lemma form_safe_pretty_N_char (x : N) : form_safe (pretty_N_char x) = true.
Proof. unfold pretty_N_char. repeat case_match; reflexivity. Qed.

Lemma form_urlencode_pretty_N_go (x : N) :
  forall s, form_urlencode s = s -> form_urlencode (pretty_N_go x s) = pretty_N_go x s.
Proof.
  induction (N.lt_wf_0 x) as [x _ IH]. intros s Hs.
  destruct (decide (0 < x)%N) as [Hpos|Hzero].
  - rewrite pretty_N_go_step by exact Hpos.
    apply IH; [apply N.div_lt; lia|].
    cbn [form_urlencode]. now rewrite form_safe_pretty_N_char, Hs.
  - replace x with 0%N by lia. now rewrite pretty_N_go_0.
Qed.

Lemma form_urlencode_pretty_N (x : N) : form_urlencode (pretty x) = pretty x.
Proof.
  unfold pretty, pretty_N. case_decide; [reflexivity|].
  now apply form_urlencode_pretty_N_go.
Qed.

(** A decimal numeral goes through the form encoding unchanged. *)
Lemma form_urlencode_pretty_Z (z : Z) : form_urlencode (pretty z) = pretty z.
Proof.
  destruct z as [|p|p]; [reflexivity| |].
  - exact (form_urlencode_pretty_N (N.pos p)).
  - change (pretty (Z.neg p)) with ("-" +:+ pretty (N.pos p)).
    rewrite append_cons. cbn [form_urlencode].
    change (form_safe "-"%char) with true. cbn iota.
    change ("" +:+ pretty (N.pos p)) with (pretty (N.pos p)).
    now rewrite form_urlencode_pretty_N.
Qed.

Lemma repositories_url_first workspace projectKey :
  repositories_url workspace projectKey None
  = "repositories/" +:+ workspace +:+ "?q=project.key=" +:+ dquote +:+ projectKey +:+ dquote.
Proof. unfold repositories_url. apply append_nil_r. Qed.

Lemma repositories_url_page workspace projectKey (q : number) :
  truthy_number q = true ->
  repositories_url workspace projectKey (Some q)
  = ("repositories/" +:+ workspace +:+ "?q=project.key=" +:+ dquote +:+ projectKey +:+ dquote)
    +:+ "&page=" +:+ number_toString q.
Proof. intros Hq. unfold repositories_url. now rewrite Hq. Qed.

Lemma code_search_url_first workspace query :
  code_search_url workspace query None
  = "workspaces/" +:+ workspace +:+ "/search/code?search_query=" +:+ form_urlencode query
    +:+ "&fields=%2Bvalues.file.commit.repository".
Proof.
  unfold code_search_url, URLSearchParams_toString. cbn [map join].
  change (form_urlencode "search_query") with "search_query".
  change (form_urlencode "fields") with "fields".
  change (form_urlencode "+values.file.commit.repository")
    with "%2Bvalues.file.commit.repository".
  rewrite !append_assoc. reflexivity.
Qed.

Lemma form_urlencode_number (q : number) :
  form_urlencode (number_toString q) = number_toString q.
Proof. destruct q as [|z]; [reflexivity|apply form_urlencode_pretty_Z]. Qed.

Lemma code_search_url_page workspace query (q : number) :
  truthy_number q = true ->
  code_search_url workspace query (Some q)
  = ("workspaces/" +:+ workspace +:+ "/search/code?search_query=" +:+ form_urlencode query
     +:+ "&fields=%2Bvalues.file.commit.repository")
    +:+ "&page=" +:+ number_toString q.
Proof.
  intros Hq. unfold code_search_url, URLSearchParams_toString.
  rewrite Hq. cbn [app map join].
  change (form_urlencode "search_query") with "search_query".
  change (form_urlencode "fields") with "fields".
  change (form_urlencode "page") with "page".
  change (form_urlencode "+values.file.commit.repository")
    with "%2Bvalues.file.commit.repository".
  rewrite form_urlencode_number, !append_assoc. reflexivity.
Qed.

(** Asking for a page number that is falsy, [0] or [NaN], is asking without
    a page parameter; this is why a page numbered -1 or without a number
    cannot be followed and [linked] leaves it out. *)
Lemma falsy_page_is_omitted workspace projectKey query (q : number) :
  truthy_number q = false ->
  repositories_url workspace projectKey (Some q) = repositories_url workspace projectKey None
  /\ code_search_url workspace query (Some q) = code_search_url workspace query None.
Proof. intros Hq. unfold repositories_url, code_search_url. now rewrite Hq. Qed.

Lemma linked_page_numbers {A} (pages : list (PaginatedResponse.t A)) :
  linked pages ->
  Forall (fun p => truthy_number (plus_one (PaginatedResponse.page p)) = true)
         (removelast pages).
Proof.
  induction pages as [|p pages IH]; [intros []|].
  destruct pages as [|p' pages]; [constructor|].
  intros (_ & Hpage & Hlinked).
  change (removelast (p :: p' :: pages)) with (p :: removelast (p' :: pages)).
  constructor; auto.
Qed.

Lemma page_requests {A} (url : option number -> string) (base : string)
    (pages : list (PaginatedResponse.t A)) :
  url None = base ->
  (forall q, truthy_number q = true ->
             url (Some q) = base +:+ "&page=" +:+ number_toString q) ->
  linked pages ->
  map (fun q => get_request (url q)) (page_parameters None pages)
  = get_request base
    :: map (fun p => get_request
                       (base +:+ "&page="
                        +:+ number_toString (plus_one (PaginatedResponse.page p))))
           (removelast pages).
Proof.
  intros Hfirst Hpage Hlinked. unfold page_parameters. cbn [map].
  rewrite Hfirst, map_map. f_equal.
  apply linked_page_numbers in Hlinked.
  induction Hlinked as [|p ps Hp _ IH]; [reflexivity|].
  cbn [map]. now rewrite IH, (Hpage _ Hp).
Qed.

(** ** The claims *)

(** C1, as the code has it.  For every sequence of pages served to
    [getRepositoriesByProject] and to [codeSearch] in which every page but
    the last carries a [next] link and a page number other than -1 (see
    [linked]), the method resolves to the concatenation of the pages'
    [values] in page order and issues exactly one request per page: the
    first without a page parameter, each later one with [page] set to the
    [page] field of the response before it plus one, as JavaScript adds and
    prints it.  Nothing else is taken from the transport. *)
Theorem pagination_concatenates_pages :
  forall (workspace projectKey query : string)
         (repoPages : list (PaginatedResponse.t IRepository))
         (repoResponses : list Response.t)
         (searchPages : list (PaginatedResponse.t ICodeSearchResult))
         (searchResponses : list Response.t)
         (rest : list Outcome) (log : list Request.t) (fuel : nat),
    linked repoPages ->
    linked searchPages ->
    Forall2 (fun r p => Response.body r = BRepositories p) repoResponses repoPages ->
    Forall2 (fun r p => Response.body r = BCodeSearch p) searchResponses searchPages ->
    (length repoPages <= fuel)%nat ->
    (length searchPages <= fuel)%nat ->
    let repoUrl :=
      "repositories/" +:+ workspace +:+ "?q=project.key=" +:+ dquote +:+ projectKey
      +:+ dquote in
    let searchUrl :=
      "workspaces/" +:+ workspace +:+ "/search/code?search_query=" +:+ form_urlencode query
      +:+ "&fields=%2Bvalues.file.commit.repository" in
    getRepositoriesByProject fuel workspace projectKey None
      {| pending := map Fulfil repoResponses ++ rest; issued := log |}
    = (Resolved (concat (map PaginatedResponse.values repoPages)),
       {| pending := rest;
          issued :=
            log ++ get_request repoUrl
                   :: map (fun p => get_request
                                      (repoUrl +:+ "&page="
                                       +:+ number_toString (plus_one (PaginatedResponse.page p))))
                          (removelast repoPages) |})
    /\ codeSearch fuel workspace query None
         {| pending := map Fulfil searchResponses ++ rest; issued := log |}
       = (Resolved (concat (map PaginatedResponse.values searchPages)),
          {| pending := rest;
             issued :=
               log ++ get_request searchUrl
                      :: map (fun p => get_request
                                         (searchUrl +:+ "&page="
                                          +:+ number_toString (plus_one (PaginatedResponse.page p))))
                             (removelast searchPages) |}).
Proof.
  intros workspace projectKey query repoPages repoResponses searchPages searchResponses
    rest log fuel HrepoLinked HsearchLinked HrepoBodies HsearchBodies HrepoFuel HsearchFuel
    repoUrl searchUrl.
  split.
  - rewrite getRepositoriesByProject_paginated.
    rewrite (paginated_linked as_repositories (repositories_url workspace projectKey)
               repoPages HrepoLinked repoResponses rest log fuel None).
    + rewrite (page_requests (repositories_url workspace projectKey) repoUrl);
        auto using repositories_url_first, repositories_url_page.
    + eapply Forall2_impl; [exact HrepoBodies|]. cbv beta. now intros r p ->.
    + exact HrepoFuel.
  - rewrite codeSearch_paginated.
    rewrite (paginated_linked as_code_search (code_search_url workspace query)
               searchPages HsearchLinked searchResponses rest log fuel None).
    + rewrite (page_requests (code_search_url workspace query) searchUrl);
        auto using code_search_url_first, code_search_url_page.
    + eapply Forall2_impl; [exact HsearchBodies|]. cbv beta. now intros r p ->.
    + exact HsearchFuel.
Qed.

(** C1, as stated, fails: it is not the case that for every sequence of
    pages held together by [next] links each later request carries the
    [page] field of the response before it plus one.  After a first page
    that links on and announces -1 the client asks again without a page
    parameter, not for page 0. *)
Lemma pagination_does_not_ask_for_page_zero :
  ~ (forall (workspace projectKey query : string)
            (repoPages : list (PaginatedResponse.t IRepository))
            (repoResponses : list Response.t)
            (searchPages : list (PaginatedResponse.t ICodeSearchResult))
            (searchResponses : list Response.t)
            (rest : list Outcome) (log : list Request.t) (fuel : nat),
        chained repoPages ->
        chained searchPages ->
        Forall2 (fun r p => Response.body r = BRepositories p) repoResponses repoPages ->
        Forall2 (fun r p => Response.body r = BCodeSearch p) searchResponses searchPages ->
        (length repoPages <= fuel)%nat ->
        (length searchPages <= fuel)%nat ->
        let repoUrl :=
          "repositories/" +:+ workspace +:+ "?q=project.key=" +:+ dquote +:+ projectKey
          +:+ dquote in
        let searchUrl :=
          "workspaces/" +:+ workspace +:+ "/search/code?search_query="
          +:+ form_urlencode query +:+ "&fields=%2Bvalues.file.commit.repository" in
        getRepositoriesByProject fuel workspace projectKey None
          {| pending := map Fulfil repoResponses ++ rest; issued := log |}
        = (Resolved (concat (map PaginatedResponse.values repoPages)),
           {| pending := rest;
              issued :=
                log ++ get_request repoUrl
                       :: map (fun p => get_request
                                          (repoUrl +:+ "&page="
                                           +:+ number_toString
                                                 (plus_one (PaginatedResponse.page p))))
                              (removelast repoPages) |})
        /\ codeSearch fuel workspace query None
             {| pending := map Fulfil searchResponses ++ rest; issued := log |}
           = (Resolved (concat (map PaginatedResponse.values searchPages)),
              {| pending := rest;
                 issued :=
                   log ++ get_request searchUrl
                          :: map (fun p => get_request
                                             (searchUrl +:+ "&page="
                                              +:+ number_toString
                                                    (plus_one (PaginatedResponse.page p))))
                                 (removelast searchPages) |})).
Proof.
  intros Hclaim.
  assert (Hchained : chained [Scenario.unnumbered; Scenario.last_page])
    by (split; reflexivity).
  destruct (Hclaim "acme" "PRJ" "needle"
              [Scenario.unnumbered; Scenario.last_page]
              (map (fun p => Sample.ok (BRepositories p))
                   [Scenario.unnumbered; Scenario.last_page])
              [Scenario.unnumbered; Scenario.last_page]
              (map (fun p => Sample.ok (BCodeSearch p))
                   [Scenario.unnumbered; Scenario.last_page])
              [] [] 2%nat Hchained Hchained
              ltac:(repeat constructor) ltac:(repeat constructor)
              ltac:(simpl; lia) ltac:(simpl; lia))
    as [Hrepo _].
  vm_compute in Hrepo. discriminate Hrepo.
Qed.

(** C2. A page without a [next] field ends the aggregation of
    [getRepositoriesByProject] and of [codeSearch]: served first, it costs
    exactly one request and its [values] come back unchanged; served after
    any other outcomes, a run with more fuel than there are outcomes before
    it settles (it does not run out of fuel), with at most one request per
    outcome up to that page and nothing taken from behind it. *)
Theorem pagination_stops_without_next :
  forall (workspace projectKey query : string) (requestPage : option number)
         (before : list Outcome)
         (repoResponse : Response.t) (repoPage : PaginatedResponse.t IRepository)
         (searchResponse : Response.t) (searchPage : PaginatedResponse.t ICodeSearchResult)
         (rest : list Outcome) (log : list Request.t) (fuel : nat),
    Response.body repoResponse = BRepositories repoPage ->
    PaginatedResponse.next repoPage = None ->
    Response.body searchResponse = BCodeSearch searchPage ->
    PaginatedResponse.next searchPage = None ->
    (length before < fuel)%nat ->
    getRepositoriesByProject fuel workspace projectKey requestPage
      {| pending := Fulfil repoResponse :: rest; issued := log |}
    = (Resolved (PaginatedResponse.values repoPage),
       {| pending := rest;
          issued := log ++ [get_request (repositories_url workspace projectKey requestPage)] |})
    /\ codeSearch fuel workspace query requestPage
         {| pending := Fulfil searchResponse :: rest; issued := log |}
       = (Resolved (PaginatedResponse.values searchPage),
          {| pending := rest;
             issued := log ++ [get_request (code_search_url workspace query requestPage)] |})
    /\ (let run := getRepositoriesByProject fuel workspace projectKey requestPage
                     {| pending := before ++ Fulfil repoResponse :: rest; issued := log |} in
        fst run <> OutOfFuel
        /\ (length (issued (snd run)) <= length log + length before + 1)%nat
        /\ rest `suffix_of` pending (snd run))
    /\ (let run := codeSearch fuel workspace query requestPage
                     {| pending := before ++ Fulfil searchResponse :: rest; issued := log |} in
        fst run <> OutOfFuel
        /\ (length (issued (snd run)) <= length log + length before + 1)%nat
        /\ rest `suffix_of` pending (snd run)).
Proof.
  intros workspace projectKey query requestPage before repoResponse repoPage
    searchResponse searchPage rest log fuel HrepoBody HrepoNext HsearchBody HsearchNext Hfuel.
  assert (HrepoView : as_repositories (Response.body repoResponse) = Some repoPage)
    by now rewrite HrepoBody.
  assert (HsearchView : as_code_search (Response.body searchResponse) = Some searchPage)
    by now rewrite HsearchBody.
  assert (HrepoLast : has_next repoPage = false)
    by (unfold has_next; now rewrite HrepoNext).
  assert (HsearchLast : has_next searchPage = false)
    by (unfold has_next; now rewrite HsearchNext).
  split; [|split; [|split]].
  - destruct fuel as [|fuel]; [lia|].
    rewrite getRepositoriesByProject_paginated. now apply paginated_last_page.
  - destruct fuel as [|fuel]; [lia|].
    rewrite codeSearch_paginated. now apply paginated_last_page.
  - cbv zeta. rewrite getRepositoriesByProject_paginated.
    now apply (paginated_settles _ _ before repoResponse repoPage).
  - cbv zeta. rewrite codeSearch_paginated.
    now apply (paginated_settles _ _ before searchResponse searchPage).
Qed.

(** ** Pipeline variables *)

Lemma find_by_key_absent varName repoVars :
  (forall v, In v repoVars -> IPipelineVariable.key v <> varName) ->
  find_by_key varName repoVars = None.
Proof.
  intros Habsent. unfold find_by_key.
  destruct (List.find _ repoVars) as [v|] eqn:Hfind; [|reflexivity].
  apply find_some in Hfind as [Hin Hkey].
  apply String.eqb_eq in Hkey. now destruct (Habsent v Hin).
Qed.

Lemma find_by_key_first varName earlier v later :
  IPipelineVariable.key v = varName ->
  (forall u, In u earlier -> IPipelineVariable.key u <> varName) ->
  find_by_key varName (earlier ++ v :: later) = Some v.
Proof.
  intros Hkey Hearlier. unfold find_by_key.
  induction earlier as [|u earlier IH]; cbn [app List.find].
  - now rewrite (proj2 (String.eqb_eq _ _) Hkey).
  - rewrite (proj2 (String.eqb_neq _ _) (Hearlier u (or_introl eq_refl))).
    apply IH. intros u' Hin. apply Hearlier. now right.
Qed.

Lemma getRepoVariables_step workspace repoSlug w :
  exists res,
    getRepoVariables workspace repoSlug w
    = (res, {| pending := tail (pending w);
               issued := issued w ++ [get_request (variables_url workspace repoSlug)] |})
    /\ res <> OutOfFuel.
Proof.
  unfold getRepoVariables, await.
  destruct (json_as_step as_variables GET (variables_url workspace repoSlug) None json w)
    as (res & -> & Hres).
  destruct res; eexists; (split; [reflexivity|]); congruence.
Qed.

Lemma getRepoVariables_fulfil workspace repoSlug r page rest log :
  Response.body r = BVariables page ->
  getRepoVariables workspace repoSlug {| pending := Fulfil r :: rest; issued := log |}
  = (Resolved (PaginatedResponse.values page),
     {| pending := rest;
        issued := log ++ [get_request (variables_url workspace repoSlug)] |}).
Proof.
  intros Hbody. unfold getRepoVariables, await.
  rewrite (json_as_fulfil as_variables _ _ _ _ r page) by now rewrite Hbody.
  reflexivity.
Qed.

Lemma createRepoVariable_issued workspace repoSlug varName varValue w :
  issued (snd (createRepoVariable workspace repoSlug varName varValue w))
  = issued w
    ++ [{| Request.method := POST;
           Request.url := variables_url workspace repoSlug;
           Request.payload :=
             Some (JsonVariable {| VariableBody.type := "pipeline_variable";
                                   VariableBody.uuid := None;
                                   VariableBody.key := varName;
                                   VariableBody.value := varValue;
                                   VariableBody.secured := true |});
           Request.responseType := json |}].
Proof.
  unfold createRepoVariable.
  destruct (json_as_step as_variable POST (variables_url workspace repoSlug)
              (Some (JsonVariable {| VariableBody.type := "pipeline_variable";
                                     VariableBody.uuid := None;
                                     VariableBody.key := varName;
                                     VariableBody.value := varValue;
                                     VariableBody.secured := true |})) json w)
    as (res & -> & _).
  reflexivity.
Qed.

Lemma updateRepoVariable_issued workspace repoSlug varUuid varName varValue w :
  issued (snd (updateRepoVariable workspace repoSlug varUuid varName varValue w))
  = issued w
    ++ [{| Request.method := PUT;
           Request.url := variables_url workspace repoSlug +:+ "/" +:+ varUuid;
           Request.payload :=
             Some (JsonVariable {| VariableBody.type := "pipeline_variable";
                                   VariableBody.uuid := Some varUuid;
                                   VariableBody.key := varName;
                                   VariableBody.value := varValue;
                                   VariableBody.secured := true |});
           Request.responseType := json |}].
Proof.
  unfold updateRepoVariable.
  destruct (json_as_step as_variable PUT
              (variables_url workspace repoSlug +:+ "/" +:+ varUuid)
              (Some (JsonVariable {| VariableBody.type := "pipeline_variable";
                                     VariableBody.uuid := Some varUuid;
                                     VariableBody.key := varName;
                                     VariableBody.value := varValue;
                                     VariableBody.secured := true |})) json w)
    as (res & -> & _).
  reflexivity.
Qed.

(** C3. [setRepoVariable] after a listing of the repository's variables:
    when no listed variable has the key, the listing is followed by exactly
    one POST to the collection and nothing else; when one has it (with
    [find], the first such entry), the listing is followed by exactly one
    PUT to the path that ends in the uuid of that entry and nothing else.
    Either way one write is issued, never both. *)
Theorem setRepoVariable_creates_or_updates :
  forall (workspace repoSlug varName varValue : string)
         (listing : Response.t) (page : PaginatedResponse.t IPipelineVariable.t)
         (rest : list Outcome) (log : list Request.t),
    Response.body listing = BVariables page ->
    let repoVars := PaginatedResponse.values page in
    let after :=
      snd (setRepoVariable workspace repoSlug varName varValue
             {| pending := Fulfil listing :: rest; issued := log |}) in
    ((forall v, In v repoVars -> IPipelineVariable.key v <> varName) ->
     exists write,
       issued after = log ++ [get_request (variables_url workspace repoSlug); write]
       /\ Request.method write = POST
       /\ Request.url write = variables_url workspace repoSlug)
    /\ (forall earlier existing later,
          repoVars = earlier ++ existing :: later ->
          IPipelineVariable.key existing = varName ->
          (forall u, In u earlier -> IPipelineVariable.key u <> varName) ->
          exists write,
            issued after = log ++ [get_request (variables_url workspace repoSlug); write]
            /\ Request.method write = PUT
            /\ Request.url write
               = variables_url workspace repoSlug +:+ "/"
                 +:+ IPipelineVariable.uuid existing).
Proof.
  intros workspace repoSlug varName varValue listing page rest log Hbody repoVars after.
  subst after repoVars. unfold setRepoVariable, await.
  rewrite (getRepoVariables_fulfil workspace repoSlug listing page rest log Hbody).
  split.
  - intros Habsent. rewrite (find_by_key_absent _ _ Habsent).
    rewrite createRepoVariable_issued. cbn [issued]. rewrite <- app_assoc.
    eexists. split; [reflexivity|]. split; reflexivity.
  - intros earlier existing later Hvars Hkey Hearlier.
    rewrite Hvars, (find_by_key_first _ _ _ _ Hkey Hearlier).
    rewrite updateRepoVariable_issued. cbn [issued]. rewrite <- app_assoc.
    eexists. split; [reflexivity|]. split; reflexivity.
Qed.

(** C4. [deleteRepoVariable] after a listing of the repository's variables:
    when no listed variable has the key it resolves to [null] and the
    listing is the only request, no DELETE is issued; when one has it, the
    listing is followed by exactly one DELETE to the path that ends in the
    uuid of that entry (the first with the key). *)
Theorem deleteRepoVariable_missing_key_is_noop :
  forall (workspace repoSlug varName : string)
         (listing : Response.t) (page : PaginatedResponse.t IPipelineVariable.t)
         (rest : list Outcome) (log : list Request.t),
    Response.body listing = BVariables page ->
    let repoVars := PaginatedResponse.values page in
    let run :=
      deleteRepoVariable workspace repoSlug varName
        {| pending := Fulfil listing :: rest; issued := log |} in
    ((forall v, In v repoVars -> IPipelineVariable.key v <> varName) ->
     run = (Resolved None,
            {| pending := rest;
               issued := log ++ [get_request (variables_url workspace repoSlug)] |}))
    /\ (forall earlier existing later,
          repoVars = earlier ++ existing :: later ->
          IPipelineVariable.key existing = varName ->
          (forall u, In u earlier -> IPipelineVariable.key u <> varName) ->
          issued (snd run)
          = log ++ [get_request (variables_url workspace repoSlug);
                    {| Request.method := DELETE;
                       Request.url := variables_url workspace repoSlug +:+ "/"
                                      +:+ IPipelineVariable.uuid existing;
                       Request.payload := None;
                       Request.responseType := json |}]).
Proof.
  intros workspace repoSlug varName listing page rest log Hbody repoVars run.
  subst run repoVars. unfold deleteRepoVariable, await.
  rewrite (getRepoVariables_fulfil workspace repoSlug listing page rest log Hbody).
  split.
  - intros Habsent. now rewrite (find_by_key_absent _ _ Habsent).
  - intros earlier existing later Hvars Hkey Hearlier.
    rewrite Hvars, (find_by_key_first _ _ _ _ Hkey Hearlier).
    destruct (client_step DELETE
                (variables_url workspace repoSlug +:+ "/" +:+ IPipelineVariable.uuid existing)
                None json
                {| pending := rest;
                   issued := log ++ [get_request (variables_url workspace repoSlug)] |})
      as (res & -> & _).
    destruct res; cbn [snd issued]; now rewrite <- app_assoc.
Qed.

(** C10. Every variable write carries [secured: true]: the one request of
    [createRepoVariable] and of [updateRepoVariable] does, whatever the
    arguments and whatever the transport answers, and every request of
    [setRepoVariable] is either the listing, which has no body, or such a
    write.  No argument of the three methods reaches the flag. *)
Theorem variable_writes_are_secured :
  forall (workspace repoSlug varUuid varName varValue : string) (w : World),
    (exists write,
        issued (snd (createRepoVariable workspace repoSlug varName varValue w))
        = issued w ++ [write]
        /\ writes_secured write)
    /\ (exists write,
           issued (snd (updateRepoVariable workspace repoSlug varUuid varName varValue w))
           = issued w ++ [write]
           /\ writes_secured write)
    /\ (exists requests,
           issued (snd (setRepoVariable workspace repoSlug varName varValue w))
           = issued w ++ requests
           /\ Forall (fun rq => Request.payload rq = None \/ writes_secured rq) requests).
Proof.
  intros workspace repoSlug varUuid varName varValue w.
  split; [|split].
  - rewrite createRepoVariable_issued. eexists. split; [reflexivity|].
    eexists. split; reflexivity.
  - rewrite updateRepoVariable_issued. eexists. split; [reflexivity|].
    eexists. split; reflexivity.
  - unfold setRepoVariable, await.
    destruct (getRepoVariables_step workspace repoSlug w) as (res & -> & Hres).
    destruct res as [repoVars|e|]; [| |congruence].
    + destruct (find_by_key varName repoVars) as [existingVariable|].
      * rewrite updateRepoVariable_issued. cbn [issued]. rewrite <- app_assoc.
        eexists. split; [reflexivity|].
        constructor; [now left|]. constructor; [|constructor].
        right. eexists. split; reflexivity.
      * rewrite createRepoVariable_issued. cbn [issued]. rewrite <- app_assoc.
        eexists. split; [reflexivity|].
        constructor; [now left|]. constructor; [|constructor].
        right. eexists. split; reflexivity.
    + cbn [snd issued]. eexists. split; [reflexivity|].
      constructor; [now left|constructor].
Qed.

(** ** Files *)

(** C5. [getFile] turns a transport failure that carries a 404 response
    into [null]; any other failure, with another status or with no response
    at all, is rejected with the very same error; a fulfilled request
    resolves to the text of the body.  One request is issued in each case. *)
Theorem getFile_translates_404_only :
  forall (workspace repoSlug commitOrRef filePath : string)
         (rest : list Outcome) (log : list Request.t),
    let settle := fun outcome =>
      getFile workspace repoSlug commitOrRef filePath
        {| pending := outcome :: rest; issued := log |} in
    let after :=
      {| pending := rest;
         issued := log ++ [{| Request.method := GET;
                              Request.url := file_url workspace repoSlug commitOrRef filePath;
                              Request.payload := None;
                              Request.responseType := text |}] |} in
    (forall err response,
        Error.response err = Some response ->
        Response.statusCode response = 404 ->
        settle (Reject err) = (Resolved None, after))
    /\ (forall err,
          (forall response,
              Error.response err = Some response -> Response.statusCode response <> 404) ->
          settle (Reject err) = (Rejected err, after))
    /\ (forall res body,
          Response.body res = BText body ->
          settle (Fulfil res) = (Resolved (Some body), after)).
Proof.
  intros workspace repoSlug commitOrRef filePath rest log settle after.
  subst settle after. unfold getFile, catch, text_body, await, client. cbn [pending issued].
  split; [|split].
  - intros err response Hresponse Hstatus.
    rewrite Hresponse, Hstatus. reflexivity.
  - intros err Hother.
    destruct (Error.response err) as [response|] eqn:Hresponse; [|reflexivity].
    destruct (Z.eqb_spec (Response.statusCode response) 404) as [Hstatus|_];
      [|reflexivity].
    now destruct (Hother response eq_refl).
  - intros res body Hbody. rewrite Hbody. reflexivity.
Qed.

Lemma split_nonempty (sep : ascii) (s : string) : split sep s <> [].
Proof.
  destruct s as [|c s]; cbn [split]; [discriminate|].
  destruct (Ascii.eqb c sep); [discriminate|].
  destruct (split sep s); discriminate.
Qed.

(** A separator between two strings separates their segments. *)
Lemma split_app (sep : ascii) (before after : string) :
  split sep (before +:+ String sep after) = split sep before ++ split sep after.
Proof.
  induction before as [|c before IH].
  - change ("" +:+ String sep after) with (String sep after).
    cbn [split]. now rewrite Ascii.eqb_refl.
  - rewrite append_cons. cbn [split]. rewrite IH.
    destruct (Ascii.eqb c sep); [reflexivity|].
    destruct (split sep before) as [|seg segs] eqn:Hsplit; [|reflexivity].
    now destruct (split_nonempty sep before).
Qed.

Lemma split_without_separator (sep : ascii) (s : string) :
  contains sep s = false -> split sep s = [s].
Proof.
  induction s as [|c s IH]; [reflexivity|].
  cbn [contains split]. intros Hfree.
  apply orb_false_iff in Hfree as [Hc Hs].
  now rewrite Hc, (IH Hs).
Qed.

Lemma commitHash_absent (res : Response.t) :
  Response.headers res !! "location" = None -> commitHash res = "<unknown>".
Proof. intros Hloc. unfold commitHash. now rewrite Hloc. Qed.

Lemma commitHash_after_last_slash (res : Response.t) (before hash : string) :
  Response.headers res !! "location" = Some (before +:+ "/" +:+ hash) ->
  contains "/" hash = false ->
  commitHash res = hash.
Proof.
  intros Hloc Hfree. unfold commitHash. rewrite Hloc. cbn [mbind option_bind].
  change ("/" +:+ hash) with (String "/" hash).
  rewrite split_app, (split_without_separator _ hash Hfree), last_snoc.
  reflexivity.
Qed.

Lemma commitHash_without_slash (res : Response.t) (location : string) :
  Response.headers res !! "location" = Some location ->
  contains "/" location = false ->
  commitHash res = location.
Proof.
  intros Hloc Hfree. unfold commitHash. rewrite Hloc. cbn [mbind option_bind].
  now rewrite (split_without_separator _ location Hfree).
Qed.

(** C7. [commitFile] and [removeFile] resolve to what follows the last
    slash of the [Location] header of the response to their POST (to the
    whole header when it has no slash), and to the sentinel [<unknown>]
    when the response has no such header. *)
Theorem commitFile_resolves_to_commit_hash :
  forall (workspace repoSlug filePath contents : string)
         (message author branch : option string)
         (res : Response.t) (rest : list Outcome) (log : list Request.t),
    let w := {| pending := Fulfil res :: rest; issued := log |} in
    (forall before hash,
        Response.headers res !! "location" = Some (before +:+ "/" +:+ hash) ->
        contains "/" hash = false ->
        fst (commitFile workspace repoSlug filePath contents message author branch w)
        = Resolved hash
        /\ fst (removeFile workspace repoSlug filePath message author branch w)
           = Resolved hash)
    /\ (forall location,
          Response.headers res !! "location" = Some location ->
          contains "/" location = false ->
          fst (commitFile workspace repoSlug filePath contents message author branch w)
          = Resolved location
          /\ fst (removeFile workspace repoSlug filePath message author branch w)
             = Resolved location)
    /\ (Response.headers res !! "location" = None ->
        fst (commitFile workspace repoSlug filePath contents message author branch w)
        = Resolved "<unknown>"
        /\ fst (removeFile workspace repoSlug filePath message author branch w)
           = Resolved "<unknown>").
Proof.
  intros workspace repoSlug filePath contents message author branch res rest log w.
  subst w. unfold commitFile, removeFile, await.
  rewrite !client_fulfil. cbn [fst resolve].
  split; [|split].
  - intros before hash Hloc Hfree.
    now rewrite (commitHash_after_last_slash res before hash Hloc Hfree).
  - intros location Hloc Hfree.
    now rewrite (commitHash_without_slash res location Hloc Hfree).
  - intros Hloc. now rewrite (commitHash_absent res Hloc).
Qed.

(** ** Reviewers and pull requests *)

Lemma getEffectiveDefaultReviewers_fulfil workspace repoSlug r page rest log :
  Response.body r = BEffectiveDefaultReviewers page ->
  getEffectiveDefaultReviewers workspace repoSlug
    {| pending := Fulfil r :: rest; issued := log |}
  = (Resolved (map (fun x => {| ReviewerWithType.user := IDefaultReviewerAndType.user x;
                                ReviewerWithType.reviewer_type :=
                                  IDefaultReviewerAndType.reviewer_type x |})
                   (PaginatedResponse.values page)),
     {| pending := rest;
        issued := log ++ [get_request ("repositories/" +:+ workspace +:+ "/" +:+ repoSlug
                                       +:+ "/effective-default-reviewers")] |}).
Proof.
  intros Hbody. unfold getEffectiveDefaultReviewers, await.
  rewrite (json_as_fulfil as_effective_default_reviewers _ _ _ _ r page)
    by now rewrite Hbody.
  reflexivity.
Qed.

(** C8, as the code has it.  [getEffectiveDefaultReviewers] reads one page:
    it issues a single request and resolves to the reviewers of that page,
    each with its [reviewer_type], whether or not the page has a [next]
    link; the pages behind the link stay with the transport. *)
Theorem getEffectiveDefaultReviewers_reads_first_page :
  forall (workspace repoSlug : string)
         (first : Response.t) (page : PaginatedResponse.t IDefaultReviewerAndType.t)
         (rest : list Outcome) (log : list Request.t),
    Response.body first = BEffectiveDefaultReviewers page ->
    getEffectiveDefaultReviewers workspace repoSlug
      {| pending := Fulfil first :: rest; issued := log |}
    = (Resolved (map (fun x => {| ReviewerWithType.user := IDefaultReviewerAndType.user x;
                                  ReviewerWithType.reviewer_type :=
                                    IDefaultReviewerAndType.reviewer_type x |})
                     (PaginatedResponse.values page)),
       {| pending := rest;
          issued := log ++ [get_request ("repositories/" +:+ workspace +:+ "/" +:+ repoSlug
                                         +:+ "/effective-default-reviewers")] |}).
Proof. intros. now apply getEffectiveDefaultReviewers_fulfil. Qed.

(** C8, as stated, fails: it is not the case that for every linked sequence
    of pages the method resolves to the reviewers of all of them.  With two
    pages, Alice on the first and Bob on the second, it resolves to Alice. *)
Lemma getEffectiveDefaultReviewers_does_not_follow_next :
  ~ (forall (workspace repoSlug : string)
            (pages : list (PaginatedResponse.t IDefaultReviewerAndType.t))
            (responses : list Response.t) (rest : list Outcome) (log : list Request.t),
        linked pages ->
        Forall2 (fun r p => Response.body r = BEffectiveDefaultReviewers p) responses pages ->
        fst (getEffectiveDefaultReviewers workspace repoSlug
               {| pending := map Fulfil responses ++ rest; issued := log |})
        = Resolved
            (concat
               (map (fun p =>
                       map (fun x => {| ReviewerWithType.user := IDefaultReviewerAndType.user x;
                                        ReviewerWithType.reviewer_type :=
                                          IDefaultReviewerAndType.reviewer_type x |})
                           (PaginatedResponse.values p))
                    pages))).
Proof.
  intros Hclaim.
  specialize (Hclaim "acme" "site" Sample.reviewer_pages
                (map (fun p => Sample.ok (BEffectiveDefaultReviewers p)) Sample.reviewer_pages)
                [] []).
  assert (Hlinked : linked Sample.reviewer_pages).
  { split; [reflexivity|]. split; reflexivity. }
  assert (Hbodies :
            Forall2 (fun r p => Response.body r = BEffectiveDefaultReviewers p)
              (map (fun p => Sample.ok (BEffectiveDefaultReviewers p)) Sample.reviewer_pages)
              Sample.reviewer_pages).
  { repeat constructor. }
  specialize (Hclaim Hlinked Hbodies).
  vm_compute in Hclaim. discriminate Hclaim.
Qed.

(** The boolean test of [createPullRequest] keeps the reviewers whose uuid
    differs from the current user's. *)
Lemma filter_not_author (currentUser : IDefaultReviewer.t)
    (reviewers : list ReviewerWithType.t) :
  List.filter (fun reviewer =>
                 negb (String.eqb (IDefaultReviewer.uuid currentUser)
                                  (ReviewerWithType.uuid reviewer)))
              reviewers
  = filter (fun reviewer =>
              ReviewerWithType.uuid reviewer <> IDefaultReviewer.uuid currentUser)
           reviewers.
Proof.
  induction reviewers as [|reviewer reviewers IH]; [reflexivity|].
  cbn [List.filter]. rewrite filter_cons, IH.
  destruct (String.eqb_spec (IDefaultReviewer.uuid currentUser)
              (ReviewerWithType.uuid reviewer)) as [Hsame|Hother]; cbn [negb].
  - rewrite decide_False; [reflexivity|]. intros Hne. now apply Hne.
  - rewrite decide_True; [reflexivity|]. congruence.
Qed.

(** C6. Whatever user [getCurrentUser] resolves to and whatever list
    [getEffectiveDefaultReviewers] resolves to, [createPullRequest] then
    issues one POST whose body lists those reviewers, in order, without the
    entries that have the uuid of the current user; the body asks to close
    the source branch, names the title and the source branch given, and has
    no destination when no destination branch is given. *)
Theorem createPullRequest_excludes_author :
  forall (workspace repoSlug title sourceBranch : string)
         (destinationBranch : option string)
         (w0 w1 w2 : World)
         (currentUser : IDefaultReviewer.t) (effective : list ReviewerWithType.t),
    getCurrentUser w0 = (Resolved currentUser, w1) ->
    getEffectiveDefaultReviewers workspace repoSlug w1 = (Resolved effective, w2) ->
    exists body,
      issued (snd (createPullRequest workspace repoSlug title sourceBranch
                     destinationBranch w0))
      = issued w2
        ++ [{| Request.method := POST;
               Request.url := "repositories/" +:+ workspace +:+ "/" +:+ repoSlug
                              +:+ "/pullrequests";
               Request.payload := Some (JsonPullRequest body);
               Request.responseType := json |}]
      /\ PullRequestBody.reviewers body
         = filter (fun reviewer =>
                     ReviewerWithType.uuid reviewer <> IDefaultReviewer.uuid currentUser)
                  effective
      /\ PullRequestBody.close_source_branch body = true
      /\ PullRequestBody.title body = title
      /\ PullRequestBody.source body = {| BranchRef.branch_name := sourceBranch |}
      /\ (destinationBranch = None -> PullRequestBody.destination body = None)
      /\ (forall name,
             destinationBranch = Some name -> name <> "" ->
             PullRequestBody.destination body = Some {| BranchRef.branch_name := name |}).
Proof.
  intros workspace repoSlug title sourceBranch destinationBranch w0 w1 w2
    currentUser effective Huser Hreviewers.
  unfold createPullRequest. unfold await at 1. rewrite Huser.
  unfold await at 1. rewrite Hreviewers.
  match goal with
  | |- context [json_as as_pullrequest (client POST ?u ?p json) w2] =>
      destruct (json_as_step as_pullrequest POST u p json w2) as (res & -> & _)
  end.
  cbn [snd issued]. eexists. split; [reflexivity|].
  cbn [PullRequestBody.reviewers PullRequestBody.close_source_branch
         PullRequestBody.title PullRequestBody.source PullRequestBody.destination].
  split; [apply filter_not_author|].
  repeat (split; [reflexivity|]).
  split.
  - now intros ->.
  - intros name -> Hname. destruct name; [contradiction|reflexivity].
Qed.

(** ** Workspaces *)

(** C9.  The path that [getWorkspace] requests is [workspaces/], the
    workspace and a closing brace: it is never the documented path
    [workspaces/{workspace}] filled in with the workspace. *)
Theorem getWorkspace_path_has_trailing_brace :
  forall (workspace : string) (w : World),
    issued (snd (getWorkspace workspace w))
    = issued w ++ [get_request ("workspaces/" +:+ workspace +:+ "}")]
    /\ "workspaces/" +:+ workspace +:+ "}" <> "workspaces/" +:+ workspace.
Proof.
  intros workspace w. split.
  - unfold getWorkspace.
    destruct (json_as_step as_workspace GET ("workspaces/" +:+ workspace +:+ "}") None json w)
      as (res & -> & _).
    reflexivity.
  - intros Hsame. apply (f_equal String.length) in Hsame.
    rewrite !length_append in Hsame. simpl in Hsame. lia.
Qed.

(** ** The theorems at sample inputs *)

(** C1 on three pages numbered 1, 2, 3: three requests, the second and the
    third with [page=2] and [page=3], the first without. *)
Lemma pagination_concatenates_three_pages :
  let repoUrl := "repositories/acme?q=project.key=" +:+ dquote +:+ "PRJ" +:+ dquote in
  let searchUrl :=
    "workspaces/acme/search/code?search_query=needle&fields=%2Bvalues.file.commit.repository" in
  getRepositoriesByProject 3 "acme" "PRJ" None
    (Sample.world (map (fun p => Fulfil (Sample.ok (BRepositories p))) Sample.three_pages))
  = (Resolved [JString "r1"; JString "r2"; JString "r3"; JString "r4"],
     {| pending := [];
        issued := [get_request repoUrl;
                   get_request (repoUrl +:+ "&page=2");
                   get_request (repoUrl +:+ "&page=3")] |})
  /\ codeSearch 3 "acme" "needle" None
       (Sample.world (map (fun p => Fulfil (Sample.ok (BCodeSearch p))) Sample.three_pages))
     = (Resolved [JString "r1"; JString "r2"; JString "r3"; JString "r4"],
        {| pending := [];
           issued := [get_request searchUrl;
                      get_request (searchUrl +:+ "&page=2");
                      get_request (searchUrl +:+ "&page=3")] |}).
Proof.
  assert (Hlinked : linked Sample.three_pages).
  { split; [reflexivity|]. split; [reflexivity|].
    split; [reflexivity|]. split; reflexivity. }
  exact (pagination_concatenates_pages "acme" "PRJ" "needle"
           Sample.three_pages
           (map (fun p => Sample.ok (BRepositories p)) Sample.three_pages)
           Sample.three_pages
           (map (fun p => Sample.ok (BCodeSearch p)) Sample.three_pages)
           [] [] 3 Hlinked Hlinked
           ltac:(repeat constructor) ltac:(repeat constructor)
           ltac:(simpl; lia) ltac:(simpl; lia)).
Defined.

(** C2 on the last of the three pages, asked for as page 3 and served
    first, and on the same page served after the second one. *)
Lemma pagination_stops_on_sample_last_page :
  let second := Sample.envelope [JString "r3"] 2 (Some "https://api.bitbucket.org/2.0/next") in
  let last := Sample.envelope [JString "r4"] 3 None in
  getRepositoriesByProject 2 "acme" "PRJ" (Some (Int (safe 3)))
    (Sample.world [Fulfil (Sample.ok (BRepositories last))])
  = (Resolved [JString "r4"],
     {| pending := [];
        issued := [get_request ("repositories/acme?q=project.key=" +:+ dquote +:+ "PRJ"
                                +:+ dquote +:+ "&page=3")] |})
  /\ codeSearch 2 "acme" "needle" (Some (Int (safe 3)))
       (Sample.world [Fulfil (Sample.ok (BCodeSearch last))])
     = (Resolved [JString "r4"],
        {| pending := [];
           issued := [get_request
                        ("workspaces/acme/search/code?search_query=needle"
                         +:+ "&fields=%2Bvalues.file.commit.repository&page=3")] |})
  /\ fst (getRepositoriesByProject 2 "acme" "PRJ" (Some (Int (safe 3)))
            (Sample.world [Fulfil (Sample.ok (BRepositories second));
                           Fulfil (Sample.ok (BRepositories last))]))
     <> OutOfFuel
  /\ fst (codeSearch 2 "acme" "needle" (Some (Int (safe 3)))
            (Sample.world [Fulfil (Sample.ok (BRepositories second));
                           Fulfil (Sample.ok (BCodeSearch last))]))
     <> OutOfFuel.
Proof.
  intros second last.
  pose proof (pagination_stops_without_next "acme" "PRJ" "needle" (Some (Int (safe 3)))
                [Fulfil (Sample.ok (BRepositories second))]
                (Sample.ok (BRepositories last)) last
                (Sample.ok (BCodeSearch last)) last
                [] [] 2 eq_refl eq_refl eq_refl eq_refl ltac:(simpl; lia))
    as (Hrepo & Hsearch & (HrepoSettles & _) & (HsearchSettles & _)).
  split; [exact Hrepo|]. split; [exact Hsearch|].
  split; [exact HrepoSettles|exact HsearchSettles].
Defined.

(** C3 on a repository with the variables OTHER and TOKEN. *)
Lemma setRepoVariable_on_sample_listing :
  let listing :=
    Sample.ok (BVariables (Sample.envelope [Sample.variable "OTHER" "{u0}";
                                            Sample.variable "TOKEN" "{u1}"] 1 None)) in
  let listed := get_request "repositories/acme/site/pipelines_config/variables" in
  (exists write,
      issued (snd (setRepoVariable "acme" "site" "FRESH" "1"
                     (Sample.world [Fulfil listing])))
      = [listed; write]
      /\ Request.method write = POST
      /\ Request.url write = "repositories/acme/site/pipelines_config/variables")
  /\ (exists write,
         issued (snd (setRepoVariable "acme" "site" "TOKEN" "1"
                        (Sample.world [Fulfil listing])))
         = [listed; write]
         /\ Request.method write = PUT
         /\ Request.url write = "repositories/acme/site/pipelines_config/variables/{u1}").
Proof.
  intros listing listed. split.
  - refine (proj1 (setRepoVariable_creates_or_updates "acme" "site" "FRESH" "1" listing
                     _ [] [] eq_refl) _).
    intros v [<-|[<-|[]]]; discriminate.
  - refine (proj2 (setRepoVariable_creates_or_updates "acme" "site" "TOKEN" "1" listing
                     _ [] [] eq_refl)
              [Sample.variable "OTHER" "{u0}"] (Sample.variable "TOKEN" "{u1}") []
              eq_refl eq_refl _).
    intros u [<-|[]]; discriminate.
Defined.

(** C4 on the same repository. *)
Lemma deleteRepoVariable_on_sample_listing :
  let listing :=
    Sample.ok (BVariables (Sample.envelope [Sample.variable "OTHER" "{u0}";
                                            Sample.variable "TOKEN" "{u1}"] 1 None)) in
  let listed := get_request "repositories/acme/site/pipelines_config/variables" in
  deleteRepoVariable "acme" "site" "FRESH" (Sample.world [Fulfil listing])
  = (Resolved None, {| pending := []; issued := [listed] |})
  /\ issued (snd (deleteRepoVariable "acme" "site" "TOKEN" (Sample.world [Fulfil listing])))
     = [listed;
        {| Request.method := DELETE;
           Request.url := "repositories/acme/site/pipelines_config/variables/{u1}";
           Request.payload := None;
           Request.responseType := json |}].
Proof.
  intros listing listed. split.
  - refine (proj1 (deleteRepoVariable_missing_key_is_noop "acme" "site" "FRESH" listing
                     _ [] [] eq_refl) _).
    intros v [<-|[<-|[]]]; discriminate.
  - refine (proj2 (deleteRepoVariable_missing_key_is_noop "acme" "site" "TOKEN" listing
                     _ [] [] eq_refl)
              [Sample.variable "OTHER" "{u0}"] (Sample.variable "TOKEN" "{u1}") []
              eq_refl eq_refl _).
    intros u [<-|[]]; discriminate.
Defined.

(** C5 on a 404, on a 500, on a failure without a response and on a file. *)
Lemma getFile_on_sample_outcomes :
  let asked :=
    [{| Request.method := GET;
        Request.url := "repositories/acme/site/src/main/docs/README.md";
        Request.payload := None;
        Request.responseType := text |}] in
  getFile "acme" "site" "main" "docs/./README.md" (Sample.world [Reject (Sample.status 404)])
  = (Resolved None, {| pending := []; issued := asked |})
  /\ getFile "acme" "site" "main" "docs/./README.md" (Sample.world [Reject (Sample.status 500)])
     = (Rejected (Sample.status 500), {| pending := []; issued := asked |})
  /\ getFile "acme" "site" "main" "docs/./README.md" (Sample.world [Reject network_error])
     = (Rejected network_error, {| pending := []; issued := asked |})
  /\ getFile "acme" "site" "main" "docs/./README.md"
       (Sample.world [Fulfil (Sample.ok (BText "# Readme"))])
     = (Resolved (Some "# Readme"), {| pending := []; issued := asked |}).
Proof.
  intros asked.
  pose proof (getFile_translates_404_only "acme" "site" "main" "docs/./README.md" [] [])
    as (Hmissing & Hother & Hfound).
  split; [exact (Hmissing (Sample.status 404) _ eq_refl eq_refl)|].
  split; [refine (Hother (Sample.status 500) _); intros response [= <-]; discriminate|].
  split; [refine (Hother network_error _); intros response [=]|].
  exact (Hfound (Sample.ok (BText "# Readme")) "# Readme" eq_refl).
Defined.

(** C6 on the effective reviewers Alice, Bob and the current user. *)
Lemma createPullRequest_on_sample_reviewers :
  let script :=
    [Fulfil (Sample.ok (BUser Sample.me));
     Fulfil (Sample.ok (BEffectiveDefaultReviewers
                          (Sample.envelope [Sample.default_reviewer Sample.alice;
                                            Sample.default_reviewer Sample.bob;
                                            Sample.default_reviewer Sample.me] 1 None)))] in
  exists body,
    issued (snd (createPullRequest "acme" "site" "Fix" "feature" None (Sample.world script)))
    = [get_request "user";
       get_request "repositories/acme/site/effective-default-reviewers";
       {| Request.method := POST;
          Request.url := "repositories/acme/site/pullrequests";
          Request.payload := Some (JsonPullRequest body);
          Request.responseType := json |}]
    /\ PullRequestBody.reviewers body = [Sample.reviewer Sample.alice; Sample.reviewer Sample.bob]
    /\ PullRequestBody.close_source_branch body = true
    /\ PullRequestBody.destination body = None.
Proof.
  intros script.
  destruct (createPullRequest_excludes_author "acme" "site" "Fix" "feature" None
              (Sample.world script) _ _ Sample.me _ eq_refl eq_refl)
    as (body & Hissued & Hreviewers & Hclose & _ & _ & Hdestination & _).
  exists body. split; [exact Hissued|].
  split; [exact Hreviewers|]. split; [exact Hclose|exact (Hdestination eq_refl)].
Defined.

(** C7 on a [Location] that ends in [/commit/abc123] and on no [Location]. *)
Lemma commitFile_on_sample_locations :
  let location := "https://api.bitbucket.org/2.0/repositories/acme/site/commit/abc123" in
  fst (commitFile "acme" "site" "README.md" "# Readme" None None None
         (Sample.world [Fulfil (Sample.created location)]))
  = Resolved "abc123"
  /\ fst (removeFile "acme" "site" "README.md" None None None
            (Sample.world [Fulfil (Sample.created location)]))
     = Resolved "abc123"
  /\ fst (commitFile "acme" "site" "README.md" "# Readme" None None None
            (Sample.world [Fulfil (Sample.ok (BText ""))]))
     = Resolved "<unknown>"
  /\ fst (removeFile "acme" "site" "README.md" None None None
            (Sample.world [Fulfil (Sample.ok (BText ""))]))
     = Resolved "<unknown>".
Proof.
  intros location.
  pose proof (proj1 (commitFile_resolves_to_commit_hash "acme" "site" "README.md" "# Readme"
                       None None None (Sample.created location) [] [])
                "https://api.bitbucket.org/2.0/repositories/acme/site/commit" "abc123"
                eq_refl eq_refl) as (Hcommit & Hremove).
  pose proof (proj2 (proj2 (commitFile_resolves_to_commit_hash "acme" "site" "README.md"
                              "# Readme" None None None (Sample.ok (BText "")) [] []))
                eq_refl) as (HcommitUnknown & HremoveUnknown).
  split; [exact Hcommit|]. split; [exact Hremove|].
  split; [exact HcommitUnknown|exact HremoveUnknown].
Defined.

(** C8, as the code has it, on two pages of reviewers: Alice alone comes
    back and the second page is still pending. *)
Lemma getEffectiveDefaultReviewers_on_sample_pages :
  getEffectiveDefaultReviewers "acme" "site"
    (Sample.world (map (fun p => Fulfil (Sample.ok (BEffectiveDefaultReviewers p)))
                       Sample.reviewer_pages))
  = (Resolved [Sample.reviewer Sample.alice],
     {| pending := [Fulfil (Sample.ok (BEffectiveDefaultReviewers
                                         (Sample.envelope [Sample.default_reviewer Sample.bob]
                                                          2 None)))];
        issued := [get_request "repositories/acme/site/effective-default-reviewers"] |}).
Proof.
  exact (getEffectiveDefaultReviewers_reads_first_page "acme" "site"
           (Sample.ok (BEffectiveDefaultReviewers
                         (Sample.envelope [Sample.default_reviewer Sample.alice] 1
                            (Some "https://api.bitbucket.org/2.0/next?page=2"))))
           _ _ [] eq_refl).
Defined.

(** * Further properties *)

(** ** Aggregation: failures, starting pages, odd envelopes *)

Section AggregatorEdges.
Context {A : Type}.
Variable view : Body -> option (PaginatedResponse.t A).
Variable url : option number -> string.

(** A rejection after any number of pages that link on is the outcome of the
    whole run; the values fetched so far are not returned. *)
Lemma paginated_rejects pages :
  forall responses e rest log fuel requestPage,
    Forall (fun p => has_next p = true) pages ->
    Forall2 (fun r p => view (Response.body r) = Some p) responses pages ->
    (length pages < fuel)%nat ->
    paginated view url fuel requestPage
      {| pending := map Fulfil responses ++ Reject e :: rest; issued := log |}
    = (Rejected e,
       {| pending := rest;
          issued := log ++ map (fun q => get_request (url q))
                               (requestPage
                                :: map (fun p => Some (plus_one (PaginatedResponse.page p))) pages) |}).
Proof.
  induction pages as [|p pages IH];
    intros responses e rest log fuel requestPage Hnext Hresp Hfuel.
  - apply Forall2_nil_inv_r in Hresp as ->.
    destruct fuel as [|fuel]; [simpl in Hfuel; lia|]. reflexivity.
  - destruct responses as [|r responses]; [inversion Hresp|].
    apply Forall2_cons_1 in Hresp as [Hr Hresp].
    apply Forall_cons in Hnext as [Hp Hnext].
    destruct fuel as [|fuel]; [simpl in Hfuel; lia|].
    rewrite paginated_unfold. cbn [map app].
    rewrite (json_as_fulfil view _ _ _ _ r p) by exact Hr.
    rewrite Hp, (IH responses e rest _ fuel _ Hnext Hresp) by (simpl in Hfuel; lia).
    cbn [map]. rewrite <- app_assoc. reflexivity.
Qed.

End AggregatorEdges.

(** X1. A failure on any page fails the whole listing.  After any number of
    pages that link on, a rejected request makes [getRepositoriesByProject]
    and [codeSearch] reject with that very error: the values of the pages
    already fetched are dropped, one request was made per page and one for
    the failure, and nothing is retried. *)
Theorem pagination_failure_abandons_pages :
  forall (workspace projectKey query : string) (requestPage : option number)
         (repoPages : list (PaginatedResponse.t IRepository))
         (repoResponses : list Response.t)
         (searchPages : list (PaginatedResponse.t ICodeSearchResult))
         (searchResponses : list Response.t)
         (e : Error.t) (rest : list Outcome) (log : list Request.t) (fuel : nat),
    Forall (fun p => has_next p = true) repoPages ->
    Forall (fun p => has_next p = true) searchPages ->
    Forall2 (fun r p => Response.body r = BRepositories p) repoResponses repoPages ->
    Forall2 (fun r p => Response.body r = BCodeSearch p) searchResponses searchPages ->
    (length repoPages < fuel)%nat ->
    (length searchPages < fuel)%nat ->
    getRepositoriesByProject fuel workspace projectKey requestPage
      {| pending := map Fulfil repoResponses ++ Reject e :: rest; issued := log |}
    = (Rejected e,
       {| pending := rest;
          issued :=
            log ++ map (fun q => get_request (repositories_url workspace projectKey q))
                       (requestPage
                        :: map (fun p => Some (plus_one (PaginatedResponse.page p))) repoPages) |})
    /\ codeSearch fuel workspace query requestPage
         {| pending := map Fulfil searchResponses ++ Reject e :: rest; issued := log |}
       = (Rejected e,
          {| pending := rest;
             issued :=
               log ++ map (fun q => get_request (code_search_url workspace query q))
                          (requestPage
                           :: map (fun p => Some (plus_one (PaginatedResponse.page p)))
                                  searchPages) |}).
Proof.
  intros workspace projectKey query requestPage repoPages repoResponses searchPages
    searchResponses e rest log fuel HrepoNext HsearchNext HrepoBodies HsearchBodies
    HrepoFuel HsearchFuel.
  split.
  - rewrite getRepositoriesByProject_paginated.
    apply paginated_rejects; [assumption| |assumption].
    eapply Forall2_impl; [exact HrepoBodies|]. cbv beta. now intros r p ->.
  - rewrite codeSearch_paginated.
    apply paginated_rejects; [assumption| |assumption].
    eapply Forall2_impl; [exact HsearchBodies|]. cbv beta. now intros r p ->.
Qed.


(** X3. A [next] that is the empty string counts as no [next]: the page that
    carries it ends the aggregation of both listings with one request and
    its own values. *)
Theorem empty_next_ends_pagination :
  forall (workspace projectKey query : string) (requestPage : option number)
         (repoResponse : Response.t) (repoPage : PaginatedResponse.t IRepository)
         (searchResponse : Response.t) (searchPage : PaginatedResponse.t ICodeSearchResult)
         (rest : list Outcome) (log : list Request.t) (fuel : nat),
    Response.body repoResponse = BRepositories repoPage ->
    PaginatedResponse.next repoPage = Some "" ->
    Response.body searchResponse = BCodeSearch searchPage ->
    PaginatedResponse.next searchPage = Some "" ->
    getRepositoriesByProject (S fuel) workspace projectKey requestPage
      {| pending := Fulfil repoResponse :: rest; issued := log |}
    = (Resolved (PaginatedResponse.values repoPage),
       {| pending := rest;
          issued := log ++ [get_request (repositories_url workspace projectKey requestPage)] |})
    /\ codeSearch (S fuel) workspace query requestPage
         {| pending := Fulfil searchResponse :: rest; issued := log |}
       = (Resolved (PaginatedResponse.values searchPage),
          {| pending := rest;
             issued := log ++ [get_request (code_search_url workspace query requestPage)] |}).
Proof.
  intros workspace projectKey query requestPage repoResponse repoPage searchResponse
    searchPage rest log fuel HrepoBody HrepoNext HsearchBody HsearchNext.
  split.
  - rewrite getRepositoriesByProject_paginated.
    apply paginated_last_page; [now rewrite HrepoBody|].
    unfold has_next. now rewrite HrepoNext.
  - rewrite codeSearch_paginated.
    apply paginated_last_page; [now rewrite HsearchBody|].
    unfold has_next. now rewrite HsearchNext.
Qed.

(** X4. The next page is asked for by the number the response announces, and
    a page that links on while announcing -1 makes the client ask for page
    0, which it writes as no page parameter: the second request is the
    first one again.  So does a page that links on and announces no number
    at all.  (Served a last page then, the listing resolves to the values
    of both.) *)
Theorem page_minus_one_repeats_first_request :
  forall (workspace projectKey query : string)
         (repoFirst repoSecond : Response.t)
         (repoPage repoLast : PaginatedResponse.t IRepository)
         (searchFirst searchSecond : Response.t)
         (searchPage searchLast : PaginatedResponse.t ICodeSearchResult)
         (rest : list Outcome) (log : list Request.t) (fuel : nat),
    Response.body repoFirst = BRepositories repoPage ->
    Response.body repoSecond = BRepositories repoLast ->
    Response.body searchFirst = BCodeSearch searchPage ->
    Response.body searchSecond = BCodeSearch searchLast ->
    has_next repoPage = true ->
    PaginatedResponse.page repoPage = Some (safe (-1))
    \/ PaginatedResponse.page repoPage = None ->
    has_next searchPage = true ->
    PaginatedResponse.page searchPage = Some (safe (-1))
    \/ PaginatedResponse.page searchPage = None ->
    has_next repoLast = false ->
    has_next searchLast = false ->
    let repoRequest := get_request (repositories_url workspace projectKey None) in
    let searchRequest := get_request (code_search_url workspace query None) in
    getRepositoriesByProject (S (S fuel)) workspace projectKey None
      {| pending := Fulfil repoFirst :: Fulfil repoSecond :: rest; issued := log |}
    = (Resolved (PaginatedResponse.values repoPage ++ PaginatedResponse.values repoLast),
       {| pending := rest; issued := log ++ [repoRequest; repoRequest] |})
    /\ codeSearch (S (S fuel)) workspace query None
         {| pending := Fulfil searchFirst :: Fulfil searchSecond :: rest; issued := log |}
       = (Resolved (PaginatedResponse.values searchPage ++ PaginatedResponse.values searchLast),
          {| pending := rest; issued := log ++ [searchRequest; searchRequest] |}).
Proof.
  intros workspace projectKey query repoFirst repoSecond repoPage repoLast
    searchFirst searchSecond searchPage searchLast rest log fuel
    HrepoFirst HrepoSecond HsearchFirst HsearchSecond
    HrepoNext HrepoNumber HsearchNext HsearchNumber HrepoLast HsearchLast
    repoRequest searchRequest.
  split.
  - rewrite getRepositoriesByProject_paginated, paginated_unfold.
    rewrite (json_as_fulfil as_repositories _ _ _ _ repoFirst repoPage)
      by now rewrite HrepoFirst.
    rewrite HrepoNext.
    rewrite (paginated_last_page as_repositories _ fuel _ repoSecond repoLast)
      by (try assumption; now rewrite HrepoSecond).
    rewrite (proj1 (falsy_page_is_omitted workspace projectKey query
                      (plus_one (PaginatedResponse.page repoPage))
                      ltac:(destruct HrepoNumber as [-> | ->]; reflexivity))).
    now rewrite <- app_assoc.
  - rewrite codeSearch_paginated, paginated_unfold.
    rewrite (json_as_fulfil as_code_search _ _ _ _ searchFirst searchPage)
      by now rewrite HsearchFirst.
    rewrite HsearchNext.
    rewrite (paginated_last_page as_code_search _ fuel _ searchSecond searchLast)
      by (try assumption; now rewrite HsearchSecond).
    rewrite (proj2 (falsy_page_is_omitted workspace projectKey query
                      (plus_one (PaginatedResponse.page searchPage))
                      ltac:(destruct HsearchNumber as [-> | ->]; reflexivity))).
    now rewrite <- app_assoc.
Qed.

(** ** Composite operations: what a failure stops *)

(** X6. When the listing of the variables fails, [setRepoVariable] and
    [deleteRepoVariable] reject with the error of the listing and stop: the
    listing is their only request, no variable is written or deleted. *)
Theorem variable_listing_failure_stops :
  forall (workspace repoSlug varName varValue : string)
         (e : Error.t) (rest : list Outcome) (log : list Request.t),
    setRepoVariable workspace repoSlug varName varValue
      {| pending := Reject e :: rest; issued := log |}
    = (Rejected e,
       {| pending := rest;
          issued := log ++ [get_request (variables_url workspace repoSlug)] |})
    /\ deleteRepoVariable workspace repoSlug varName
         {| pending := Reject e :: rest; issued := log |}
       = (Rejected e,
          {| pending := rest;
             issued := log ++ [get_request (variables_url workspace repoSlug)] |}).
Proof. intros. split; reflexivity. Qed.

Lemma find_by_key_found varName repoVars v :
  find_by_key varName repoVars = Some v ->
  In v repoVars /\ IPipelineVariable.key v = varName.
Proof.
  unfold find_by_key. intros Hfind. apply find_some in Hfind as [Hin Hkey].
  split; [exact Hin|]. now apply String.eqb_eq.
Qed.

(** X7. After a listing that succeeded, [deleteRepoVariable] resolves to
    [null] exactly when no listed variable has the key: [null] never stands
    for a deletion that was made or that failed.  When a variable has the
    key, the outcome is that of the DELETE: the method resolves to the
    response of the DELETE, or rejects with the error of the DELETE. *)
Theorem deleteRepoVariable_null_iff_absent :
  forall (workspace repoSlug varName : string)
         (listing : Response.t) (page : PaginatedResponse.t IPipelineVariable.t)
         (rest : list Outcome) (log : list Request.t),
    Response.body listing = BVariables page ->
    let run := fun script =>
      deleteRepoVariable workspace repoSlug varName
        {| pending := Fulfil listing :: script; issued := log |} in
    (fst (run rest) = Resolved None
     <-> (forall v, In v (PaginatedResponse.values page) ->
                    IPipelineVariable.key v <> varName))
    /\ (forall earlier existing later,
          PaginatedResponse.values page = earlier ++ existing :: later ->
          IPipelineVariable.key existing = varName ->
          (forall u, In u earlier -> IPipelineVariable.key u <> varName) ->
          let after :=
            {| pending := rest;
               issued :=
                 log ++ [get_request (variables_url workspace repoSlug);
                         {| Request.method := DELETE;
                            Request.url := variables_url workspace repoSlug +:+ "/"
                                           +:+ IPipelineVariable.uuid existing;
                            Request.payload := None;
                            Request.responseType := json |}] |} in
          (forall res, run (Fulfil res :: rest) = (Resolved (Some res), after))
          /\ (forall err, run (Reject err :: rest) = (Rejected err, after))).
Proof.
  intros workspace repoSlug varName listing page rest log Hbody run. subst run.
  cbv beta. split.
  - unfold deleteRepoVariable, await.
    rewrite (getRepoVariables_fulfil workspace repoSlug listing page rest log Hbody).
    destruct (find_by_key varName (PaginatedResponse.values page)) as [existing|] eqn:Hfind.
    + apply find_by_key_found in Hfind as [Hin Hkey]. split.
      * destruct (client_step DELETE
                    (variables_url workspace repoSlug +:+ "/"
                     +:+ IPipelineVariable.uuid existing) None json
                    {| pending := rest;
                       issued := log ++ [get_request (variables_url workspace repoSlug)] |})
          as (res & -> & _).
        destruct res; discriminate.
      * intros Habsent. now destruct (Habsent existing Hin).
    + split; [|reflexivity]. intros _ v Hin Hkey.
      unfold find_by_key in Hfind.
      pose proof (find_none _ _ Hfind v Hin) as Hne. cbv beta in Hne.
      apply String.eqb_neq in Hne. contradiction.
  - intros earlier existing later Hvalues Hkey Hearlier after. subst after.
    unfold deleteRepoVariable, await.
    split; intros outcome.
    + rewrite (getRepoVariables_fulfil workspace repoSlug listing page _ log Hbody).
      rewrite Hvalues, (find_by_key_first _ _ _ _ Hkey Hearlier).
      rewrite client_fulfil. cbn [resolve]. now rewrite <- app_assoc.
    + rewrite (getRepoVariables_fulfil workspace repoSlug listing page _ log Hbody).
      rewrite Hvalues, (find_by_key_first _ _ _ _ Hkey Hearlier).
      unfold client. cbn [pending issued]. now rewrite <- app_assoc.
Qed.

(** X8. Two calls in a row for one key, against a server that lists the
    variable once it is created: the first call lists and creates (POST)
    and resolves to the variable the server returns, the second lists and
    updates that variable (PUT to its uuid).  Four requests in all. *)
Theorem setRepoVariable_twice_creates_then_updates :
  forall (workspace repoSlug varName firstValue secondValue : string)
         (listing1 creation listing2 : Response.t)
         (page1 page2 : PaginatedResponse.t IPipelineVariable.t)
         (created : IPipelineVariable.t)
         (rest : list Outcome) (log : list Request.t),
    Response.body listing1 = BVariables page1 ->
    (forall v, In v (PaginatedResponse.values page1) ->
               IPipelineVariable.key v <> varName) ->
    Response.body creation = BVariable created ->
    IPipelineVariable.key created = varName ->
    Response.body listing2 = BVariables page2 ->
    PaginatedResponse.values page2 = PaginatedResponse.values page1 ++ [created] ->
    let w := {| pending := Fulfil listing1 :: Fulfil creation :: Fulfil listing2 :: rest;
                issued := log |} in
    fst (setRepoVariable workspace repoSlug varName firstValue w) = Resolved created
    /\ issued (snd ((first <- setRepoVariable workspace repoSlug varName firstValue ;;
                     setRepoVariable workspace repoSlug varName secondValue) w))
       = log
         ++ [get_request (variables_url workspace repoSlug);
             {| Request.method := POST;
                Request.url := variables_url workspace repoSlug;
                Request.payload :=
                  Some (JsonVariable {| VariableBody.type := "pipeline_variable";
                                        VariableBody.uuid := None;
                                        VariableBody.key := varName;
                                        VariableBody.value := firstValue;
                                        VariableBody.secured := true |});
                Request.responseType := json |};
             get_request (variables_url workspace repoSlug);
             {| Request.method := PUT;
                Request.url := variables_url workspace repoSlug +:+ "/"
                               +:+ IPipelineVariable.uuid created;
                Request.payload :=
                  Some (JsonVariable {| VariableBody.type := "pipeline_variable";
                                        VariableBody.uuid :=
                                          Some (IPipelineVariable.uuid created);
                                        VariableBody.key := varName;
                                        VariableBody.value := secondValue;
                                        VariableBody.secured := true |});
                Request.responseType := json |}].
Proof.
  intros workspace repoSlug varName firstValue secondValue listing1 creation listing2
    page1 page2 created rest log Hlisting1 Habsent Hcreation Hkey Hlisting2 Hvalues w.
  assert (Hfirst :
            setRepoVariable workspace repoSlug varName firstValue w
            = (Resolved created,
               {| pending := Fulfil listing2 :: rest;
                  issued :=
                    (log ++ [get_request (variables_url workspace repoSlug)])
                    ++ [{| Request.method := POST;
                           Request.url := variables_url workspace repoSlug;
                           Request.payload :=
                             Some (JsonVariable
                                     {| VariableBody.type := "pipeline_variable";
                                        VariableBody.uuid := None;
                                        VariableBody.key := varName;
                                        VariableBody.value := firstValue;
                                        VariableBody.secured := true |});
                           Request.responseType := json |}] |})).
  { subst w. unfold setRepoVariable, await.
    rewrite (getRepoVariables_fulfil workspace repoSlug listing1 page1 _ log Hlisting1).
    rewrite (find_by_key_absent _ _ Habsent). unfold createRepoVariable.
    now rewrite (json_as_fulfil as_variable _ _ _ _ creation created)
      by now rewrite Hcreation. }
  split; [now rewrite Hfirst|].
  unfold await at 1. rewrite Hfirst.
  unfold setRepoVariable, await.
  rewrite (getRepoVariables_fulfil workspace repoSlug listing2 page2 rest _ Hlisting2).
  rewrite Hvalues, (find_by_key_first _ _ _ [] Hkey Habsent).
  rewrite updateRepoVariable_issued. cbn [issued].
  now rewrite <- !app_assoc.
Qed.

(** X9. [createPullRequest] posts nothing unless both lookups succeed: when
    the request for the current user fails it is the only request, when the
    request for the reviewers fails it is the second and last one; each
    time the method rejects with the error of the failed lookup. *)
Theorem createPullRequest_needs_both_lookups :
  forall (workspace repoSlug title sourceBranch : string)
         (destinationBranch : option string)
         (userResponse : Response.t) (currentUser : IDefaultReviewer.t)
         (e : Error.t) (rest : list Outcome) (log : list Request.t),
    Response.body userResponse = BUser currentUser ->
    createPullRequest workspace repoSlug title sourceBranch destinationBranch
      {| pending := Reject e :: rest; issued := log |}
    = (Rejected e, {| pending := rest; issued := log ++ [get_request "user"] |})
    /\ createPullRequest workspace repoSlug title sourceBranch destinationBranch
         {| pending := Fulfil userResponse :: Reject e :: rest; issued := log |}
       = (Rejected e,
          {| pending := rest;
             issued := log ++ [get_request "user";
                               get_request ("repositories/" +:+ workspace +:+ "/"
                                            +:+ repoSlug
                                            +:+ "/effective-default-reviewers")] |}).
Proof.
  intros workspace repoSlug title sourceBranch destinationBranch userResponse currentUser
    e rest log Huser.
  split; [reflexivity|].
  unfold createPullRequest, getCurrentUser. unfold await at 1.
  rewrite (json_as_fulfil as_user _ _ _ _ userResponse currentUser) by now rewrite Huser.
  unfold await at 1. unfold getEffectiveDefaultReviewers, json_as, await, client.
  cbn [pending issued]. now rewrite <- app_assoc.
Qed.

(** ** How many requests a call costs *)

Lemma issues_resolve {A} (a : A) (w : World) : issues (resolve a) w 0.
Proof. exists []. split; [now rewrite app_nil_r|reflexivity]. Qed.

Lemma issues_client method url payload rt w : issues (client method url payload rt) w 1.
Proof.
  destruct (client_step method url payload rt w) as (res & Hrun & _).
  unfold issues. rewrite Hrun. eexists. split; reflexivity.
Qed.

Lemma issues_json_as {A} (view : Body -> option A) method url payload rt w :
  issues (json_as view (client method url payload rt)) w 1.
Proof.
  destruct (json_as_step view method url payload rt w) as (res & Hrun & _).
  unfold issues. rewrite Hrun. eexists. split; reflexivity.
Qed.

(** Awaiting costs what the promise costs plus, when it resolves, what the
    continuation costs. *)
Lemma issues_await {A B} (p : Promise A) (k : A -> Promise B) (w : World) (n m : nat) :
  issues p w n ->
  (forall a w', p w = (Resolved a, w') -> exists j, issues (k a) w' j /\ (j <= m)%nat) ->
  exists j, issues (await p k) w j /\ (n <= j <= n + m)%nat.
Proof.
  intros (requests & Hissued & Hlength) Hcont. unfold issues, await.
  destruct (p w) as [[a|e|] w'] eqn:Hrun; cbn [snd] in Hissued.
  - destruct (Hcont a w' eq_refl) as (j & (more & Hmore & Hj) & Hbound).
    exists (n + j)%nat. split; [|lia].
    exists (requests ++ more). rewrite Hmore, Hissued, <- app_assoc.
    split; [reflexivity|]. rewrite length_app. lia.
  - exists n. split; [|lia]. exists requests. now split.
  - exists n. split; [|lia]. exists requests. now split.
Qed.

Lemma issues_await_resolve {A B} (p : Promise A) (f : A -> B) (w : World) (n : nat) :
  issues p w n -> issues (await p (fun a => resolve (f a))) w n.
Proof.
  intros Hp.
  destruct (issues_await p (fun a => resolve (f a)) w n 0 Hp) as (j & Hj & Hbound).
  - intros a w' _. exists 0%nat. split; [apply issues_resolve|lia].
  - now replace n with j by lia.
Qed.

Lemma issues_getRepoVariables workspace repoSlug w :
  issues (getRepoVariables workspace repoSlug) w 1.
Proof. apply issues_await_resolve, issues_json_as. Qed.

Lemma issues_getEffectiveDefaultReviewers workspace repoSlug w :
  issues (getEffectiveDefaultReviewers workspace repoSlug) w 1.
Proof. unfold getEffectiveDefaultReviewers. apply issues_await_resolve, issues_json_as. Qed.

(** X10. The plain methods cost exactly one request, whatever the transport
    answers: a failure is not retried and a success is not followed up.
    This holds for [getCurrentUser], [getWorkspace],
    [getEffectiveDefaultReviewers], [getRepoVariables], [createRepoVariable],
    [updateRepoVariable], [removeDefaultReviewer], [getFile], [commitFile]
    and [removeFile]. *)
Theorem plain_methods_issue_one_request :
  forall (workspace repoSlug a b c : string) (message author branch : option string)
         (w : World),
    issues getCurrentUser w 1
    /\ issues (getWorkspace workspace) w 1
    /\ issues (getEffectiveDefaultReviewers workspace repoSlug) w 1
    /\ issues (getRepoVariables workspace repoSlug) w 1
    /\ issues (createRepoVariable workspace repoSlug a b) w 1
    /\ issues (updateRepoVariable workspace repoSlug a b c) w 1
    /\ issues (removeDefaultReviewer workspace repoSlug a) w 1
    /\ issues (getFile workspace repoSlug a b) w 1
    /\ issues (commitFile workspace repoSlug a b message author branch) w 1
    /\ issues (removeFile workspace repoSlug a message author branch) w 1.
Proof.
  intros workspace repoSlug a b c message author branch w.
  repeat split.
  - apply issues_json_as.
  - apply issues_json_as.
  - apply issues_getEffectiveDefaultReviewers.
  - apply issues_getRepoVariables.
  - apply issues_json_as.
  - apply issues_json_as.
  - apply issues_await_resolve, issues_client.
  - unfold getFile, catch, text_body, await, issues.
    destruct (client_step GET (file_url workspace repoSlug a b) None text w)
      as (res & -> & _).
    destruct res as [r|e|].
    + destruct (Response.body r); eexists; split; reflexivity.
    + destruct (Error.response e) as [response|]; [|eexists; split; reflexivity].
      destruct (Response.statusCode response =? 404); eexists; split; reflexivity.
    + eexists; split; reflexivity.
  - apply issues_await_resolve, issues_client.
  - apply issues_await_resolve, issues_client.
Qed.

(** X11. The composite methods cost between one request and a fixed few, in
    every world: [setRepoVariable] and [deleteRepoVariable] one or two,
    [createPullRequest] one to three. *)
Theorem composite_methods_request_budget :
  forall (workspace repoSlug a b : string) (destinationBranch : option string)
         (w : World),
    (exists n, issues (setRepoVariable workspace repoSlug a b) w n /\ (1 <= n <= 2)%nat)
    /\ (exists n, issues (deleteRepoVariable workspace repoSlug a) w n /\ (1 <= n <= 2)%nat)
    /\ (exists n, issues (createPullRequest workspace repoSlug a b destinationBranch) w n
                  /\ (1 <= n <= 3)%nat).
Proof.
  intros workspace repoSlug a b destinationBranch w.
  split; [|split].
  - apply (issues_await _ _ w 1 1 (issues_getRepoVariables workspace repoSlug w)).
    intros repoVars w' _. exists 1%nat. split; [|lia].
    destruct (find_by_key a repoVars); apply issues_json_as.
  - apply (issues_await _ _ w 1 1 (issues_getRepoVariables workspace repoSlug w)).
    intros repoVars w' _.
    destruct (find_by_key a repoVars) as [variableProps|].
    + exists 1%nat. split; [|lia]. apply issues_await_resolve, issues_client.
    + exists 0%nat. split; [apply issues_resolve|lia].
  - apply (issues_await _ _ w 1 2 (issues_json_as as_user GET "user" None json w)).
    intros currentUser w1 _.
    destruct (issues_await (getEffectiveDefaultReviewers workspace repoSlug)
                (fun effective =>
                   json_as as_pullrequest
                     (client POST
                        ("repositories/" +:+ workspace +:+ "/" +:+ repoSlug +:+ "/pullrequests")
                        (Some (JsonPullRequest
                                 {| PullRequestBody.title := a;
                                    PullRequestBody.source := {| BranchRef.branch_name := b |};
                                    PullRequestBody.destination :=
                                      match destinationBranch with
                                      | Some name =>
                                          if truthy_string name
                                          then Some {| BranchRef.branch_name := name |}
                                          else None
                                      | None => None
                                      end;
                                    PullRequestBody.reviewers :=
                                      List.filter
                                        (fun reviewer =>
                                           negb (String.eqb (IDefaultReviewer.uuid currentUser)
                                                   (ReviewerWithType.uuid reviewer)))
                                        effective;
                                    PullRequestBody.close_source_branch := true |}))
                        json))
                w1 1 1 (issues_getEffectiveDefaultReviewers workspace repoSlug w1))
      as (j & Hj & Hbound).
    + intros effective w2 _. exists 1%nat. split; [apply issues_json_as|lia].
    + exists j. split; [exact Hj|lia].
Qed.

(** ** Files: what [null], the hash and the form can be *)

(** X12. [getFile] resolves to [null] exactly when the transport rejects
    with a 404 response, and it never rejects with an error that carries a
    404 response: to the caller, [null] and only [null] means 404. *)
Theorem getFile_null_means_404 :
  forall (workspace repoSlug commitOrRef filePath : string) (w : World),
    (fst (getFile workspace repoSlug commitOrRef filePath w) = Resolved None
     <-> exists err response rest,
           pending w = Reject err :: rest
           /\ Error.response err = Some response
           /\ Response.statusCode response = 404)
    /\ (forall err response,
          fst (getFile workspace repoSlug commitOrRef filePath w) = Rejected err ->
          Error.response err = Some response ->
          Response.statusCode response <> 404).
Proof.
  intros workspace repoSlug commitOrRef filePath [script log].
  unfold getFile, catch, text_body, await, client. cbn [pending issued].
  destruct script as [|[res|err] rest].
  - split.
    + split; [discriminate|]. intros (? & ? & ? & [=] & _).
    + intros err response [= <-] [=].
  - split.
    + split.
      * destruct (Response.body res); discriminate.
      * intros (? & ? & ? & [=] & _).
    + intros err response Hrun.
      destruct (Response.body res); cbn in Hrun; try discriminate Hrun.
      all: injection Hrun as <-; intros [=].
  - destruct (Error.response err) as [response|] eqn:Hresponse.
    + destruct (Z.eqb_spec (Response.statusCode response) 404) as [Hstatus|Hstatus].
      * split.
        -- split; [|reflexivity]. intros _. now exists err, response, rest.
        -- intros ? ? [=].
      * split.
        -- split; [discriminate|].
           intros (err' & response' & rest' & [= <- <-] & Hresponse' & Hstatus').
           congruence.
        -- intros err' response' [= <-]. congruence.
    + split.
      * split; [discriminate|].
        intros (err' & response' & rest' & [= <- <-] & Hresponse' & _). congruence.
      * intros err' response' [= <-]. congruence.
Qed.

Lemma split_segments_without_separator (sep : ascii) (s : string) :
  Forall (fun seg => contains sep seg = false) (split sep s).
Proof.
  induction s as [|c s IH]; cbn [split]; [now repeat constructor|].
  destruct (Ascii.eqb c sep) eqn:Hc; [now constructor|].
  destruct (split sep s) as [|seg segs]; [now repeat constructor; cbn; rewrite Hc|].
  apply Forall_cons in IH as [Hseg Hsegs].
  constructor; [|exact Hsegs]. cbn [contains]. now rewrite Hc, Hseg.
Qed.

Lemma commitHash_without_separator (res : Response.t) :
  contains "/" (commitHash res) = false.
Proof.
  unfold commitHash.
  destruct (Response.headers res !! "location") as [location|]; [|reflexivity].
  cbn [mbind option_bind].
  destruct (last (split "/" location)) as [hash|] eqn:Hlast; [|reflexivity].
  apply last_Some_elem_of in Hlast. cbn [default].
  pose proof (split_segments_without_separator "/" location) as Hsegments.
  rewrite Forall_forall in Hsegments. now apply Hsegments.
Qed.

(** X13. Whatever the response, the string that [commitFile] and
    [removeFile] resolve to contains no slash: it is one segment of the
    [Location] header or the sentinel, never a path or a URL. *)
Theorem commit_hash_has_no_slash :
  forall (workspace repoSlug filePath contents : string)
         (message author branch : option string) (w : World) (hash : string),
    fst (commitFile workspace repoSlug filePath contents message author branch w)
    = Resolved hash
    \/ fst (removeFile workspace repoSlug filePath message author branch w)
       = Resolved hash ->
    contains "/" hash = false.
Proof.
  intros workspace repoSlug filePath contents message author branch w hash.
  unfold commitFile, removeFile, await.
  intros [Hrun|Hrun].
  - match type of Hrun with
    | context [client ?m ?u ?p ?t w] => destruct (client m u p t w) as [[res|e|] w']
    end; try discriminate Hrun.
    injection Hrun as <-. apply commitHash_without_separator.
  - match type of Hrun with
    | context [client ?m ?u ?p ?t w] => destruct (client m u p t w) as [[res|e|] w']
    end; try discriminate Hrun.
    injection Hrun as <-. apply commitHash_without_separator.
Qed.

(** X14. Committing a file whose path is [files] is removing a file: for
    every message, [commitFile(ws, repo, 'files', x, message, ...)] runs
    exactly as [removeFile(ws, repo, x, message, ...)] does (with the
    commit default for an omitted message), since the form of a removal is
    the form of a commit whose first field is named [files]. *)
Theorem commitFile_named_files_is_removeFile :
  forall (workspace repoSlug target : string) (message author branch : option string)
         (w : World),
    commitFile workspace repoSlug "files" target message author branch w
    = removeFile workspace repoSlug target
        (Some (default "Posted a file via API" message)) author branch w.
Proof. intros. reflexivity. Qed.

#[local] Set Warnings "-clear-no-such-hyp".

(** What the three optional appends leave in a form after its first field. *)
Lemma optional_fields (first : string * string) (message : string)
    (author branch : option string) :
  exists extra,
    append_if_truthy "branch" branch
      (append_if_truthy "author" author
         (append_if_truthy "message" (Some message) [first]))
    = first :: extra
    /\ map fst extra `sublist_of` ["message"; "author"; "branch"]
    /\ (forall name value,
          In (name, value) extra
          <-> value <> ""
              /\ (name = "message" /\ value = message
                  \/ name = "author" /\ author = Some value
                  \/ name = "branch" /\ branch = Some value)).
Proof.
  destruct message as [|m0 message], author as [[|a0 author]|], branch as [[|b0 branch]|];
    cbn [append_if_truthy truthy_string app];
    eexists; (split; [reflexivity|]);
    (split; [cbn [map fst];
             repeat first [apply sublist_nil | apply sublist_skip | apply sublist_cons]|]);
    intros name value; cbn [In]; naive_solver.
Qed.

(** X15. The form that [commitFile] and [removeFile] post: the file field
    first (the path with the contents, or [files] with the path), then, in
    this order and each at most once, [message], [author] and [branch].  A
    field is sent exactly when its value is not the empty string; the
    message is the default of the method when the argument is omitted, and
    no message at all when the argument is the empty string. *)
Theorem commit_form_fields :
  forall (workspace repoSlug filePath contents : string)
         (message author branch : option string) (w : World),
    (exists extra,
        issued (snd (commitFile workspace repoSlug filePath contents message author branch w))
        = issued w ++ [src_post workspace repoSlug ((filePath, contents) :: extra)]
        /\ map fst extra `sublist_of` ["message"; "author"; "branch"]
        /\ (forall name value,
              In (name, value) extra
              <-> value <> ""
                  /\ (name = "message" /\ value = default "Posted a file via API" message
                      \/ name = "author" /\ author = Some value
                      \/ name = "branch" /\ branch = Some value)))
    /\ (exists extra,
           issued (snd (removeFile workspace repoSlug filePath message author branch w))
           = issued w ++ [src_post workspace repoSlug (("files", filePath) :: extra)]
           /\ map fst extra `sublist_of` ["message"; "author"; "branch"]
           /\ (forall name value,
                 In (name, value) extra
                 <-> value <> ""
                     /\ (name = "message" /\ value = default "Removed a file via API" message
                         \/ name = "author" /\ author = Some value
                         \/ name = "branch" /\ branch = Some value))).
Proof.
  intros workspace repoSlug filePath contents message author branch w.
  split.
  - destruct (optional_fields (filePath, contents)
                (default "Posted a file via API" message) author branch)
      as (extra & Hform & Horder & Hfields).
    exists extra. split; [|now split].
    unfold commitFile, await. cbv zeta. rewrite Hform.
    destruct (client_step POST
                ("repositories/" +:+ workspace +:+ "/" +:+ repoSlug +:+ "/src")
                (Some (FormData ((filePath, contents) :: extra))) json w)
      as (res & -> & _).
    now destruct res.
  - destruct (optional_fields ("files", filePath)
                (default "Removed a file via API" message) author branch)
      as (extra & Hform & Horder & Hfields).
    exists extra. split; [|now split].
    unfold removeFile, await. cbv zeta. rewrite Hform.
    destruct (client_step POST
                ("repositories/" +:+ workspace +:+ "/" +:+ repoSlug +:+ "/src")
                (Some (FormData (("files", filePath) :: extra))) json w)
      as (res & -> & _).
    now destruct res.
Qed.

(** ** Files: the path that is requested *)

Lemma Forall_removelast {A} (P : A -> Prop) (l : list A) :
  Forall P l -> Forall P (removelast l).
Proof.
  induction 1 as [|x l Hx Hl IH]; [constructor|].
  destruct l as [|y l]; [constructor|].
  change (removelast (x :: y :: l)) with (x :: removelast (y :: l)).
  now constructor.
Qed.

Lemma resolve_segment_clean (resolved : list string) (seg : string) :
  Forall clean_segment resolved ->
  contains "/" seg = false ->
  Forall clean_segment (resolve_segment resolved seg).
Proof.
  intros Hresolved Hseg. unfold resolve_segment.
  case_bool_decide as Hskip; [exact Hresolved|].
  case_bool_decide as Hup; [now apply Forall_removelast|].
  apply Forall_app. split; [exact Hresolved|].
  constructor; [|constructor]. unfold clean_segment. tauto.
Qed.

Lemma resolve_segments_clean (segs resolved : list string) :
  Forall clean_segment resolved ->
  Forall (fun seg => contains "/" seg = false) segs ->
  Forall clean_segment (fold_left resolve_segment segs resolved).
Proof.
  revert resolved. induction segs as [|seg segs IH]; intros resolved Hresolved Hsegs;
    [exact Hresolved|].
  apply Forall_cons in Hsegs as [Hseg Hsegs]. cbn [fold_left].
  apply IH; [|exact Hsegs]. now apply resolve_segment_clean.
Qed.

(** Clean segments are walked as they are. *)
Lemma resolve_clean_segments (segs resolved : list string) :
  Forall clean_segment segs ->
  fold_left resolve_segment segs resolved = resolved ++ segs.
Proof.
  revert resolved. induction segs as [|seg segs IH]; intros resolved Hsegs;
    [now rewrite app_nil_r|].
  apply Forall_cons in Hsegs as [(Hempty & Hdot & Hdots & _) Hsegs].
  cbn [fold_left]. unfold resolve_segment at 2.
  rewrite bool_decide_eq_false_2 by tauto.
  rewrite bool_decide_eq_false_2 by exact Hdots.
  rewrite (IH _ Hsegs), <- app_assoc. reflexivity.
Qed.

(** Splitting undoes joining, for segments that are free of the separator. *)
Lemma split_join (sep : ascii) (segs : list string) :
  segs <> [] ->
  Forall (fun seg => contains sep seg = false) segs ->
  split sep (join (String sep EmptyString) segs) = segs.
Proof.
  induction segs as [|seg segs IH]; [congruence|]. intros _ Hsegs.
  apply Forall_cons in Hsegs as [Hseg Hsegs].
  destruct segs as [|seg' segs]; [now apply split_without_separator|].
  change (join (String sep EmptyString) (seg :: seg' :: segs))
    with (seg +:+ String sep EmptyString +:+ join (String sep EmptyString) (seg' :: segs)).
  change (String sep EmptyString +:+ join (String sep EmptyString) (seg' :: segs))
    with (String sep (join (String sep EmptyString) (seg' :: segs))).
  rewrite split_app, (split_without_separator _ _ Hseg), IH by (congruence || assumption).
  reflexivity.
Qed.

Lemma posix_resolve_root_clean (p : string) :
  exists segments,
    posix_resolve_root p = "/" +:+ join "/" segments /\ Forall clean_segment segments.
Proof.
  eexists. split; [reflexivity|].
  apply resolve_segments_clean; [constructor|apply split_segments_without_separator].
Qed.

Lemma posix_resolve_root_verbatim (segments : list string) :
  Forall clean_segment segments ->
  posix_resolve_root (join "/" segments) = "/" +:+ join "/" segments
  /\ posix_resolve_root ("/" +:+ join "/" segments) = "/" +:+ join "/" segments.
Proof.
  intros Hclean. unfold posix_resolve_root.
  assert (Hwalk : fold_left resolve_segment (split "/" (join "/" segments)) [] = segments).
  { destruct segments as [|seg segments]; [reflexivity|].
    rewrite split_join.
    - now rewrite (resolve_clean_segments _ [] Hclean).
    - discriminate.
    - eapply Forall_impl; [exact Hclean|]. now intros seg' (_ & _ & _ & Hfree). }
  split; [now rewrite Hwalk|].
  change ("/" +:+ join "/" segments) with (String "/" (join "/" segments)) at 1.
  cbn [split]. change (Ascii.eqb "/" "/") with true. cbn iota. cbn [fold_left].
  change (resolve_segment [] "") with (@nil string).
  now rewrite Hwalk.
Qed.

Lemma getFile_issued workspace repoSlug commitOrRef filePath w :
  issued (snd (getFile workspace repoSlug commitOrRef filePath w))
  = issued w ++ [{| Request.method := GET;
                    Request.url := file_url workspace repoSlug commitOrRef filePath;
                    Request.payload := None;
                    Request.responseType := text |}].
Proof.
  unfold getFile, catch, text_body, await.
  destruct (client_step GET (file_url workspace repoSlug commitOrRef filePath) None text w)
    as (res & -> & _).
  destruct res as [r|e|]; [| |reflexivity].
  - now destruct (Response.body r).
  - destruct (Error.response e) as [response|]; [|reflexivity].
    now destruct (Response.statusCode response =? 404).
Qed.

(** X16. Whatever the file path, the URL that [getFile] requests is the
    [src] URL of the commit followed by a slash and by segments joined with
    slashes, none of which is empty, [.] or [..]: the path is normalised
    and cannot climb out of the tree of the commit. *)
Theorem getFile_requests_normalised_path :
  forall (workspace repoSlug commitOrRef filePath : string) (w : World),
    exists segments,
      Forall clean_segment segments
      /\ issued (snd (getFile workspace repoSlug commitOrRef filePath w))
         = issued w
           ++ [{| Request.method := GET;
                  Request.url := "repositories/" +:+ workspace +:+ "/" +:+ repoSlug
                                 +:+ "/src/" +:+ commitOrRef +:+ "/"
                                 +:+ join "/" segments;
                  Request.payload := None;
                  Request.responseType := text |}].
Proof.
  intros workspace repoSlug commitOrRef filePath w.
  destruct (posix_resolve_root_clean filePath) as (segments & Hpath & Hclean).
  exists segments. split; [exact Hclean|].
  rewrite getFile_issued. unfold file_url. cbv zeta. now rewrite Hpath.
Qed.

(** X17. A path that is already clean is requested as it is written, with
    or without a leading slash: for segments that are not empty, [.] or
    [..] and hold no slash, [getFile] on their join and on a slash followed
    by their join both request the [src] URL of the commit followed by a
    slash and that join. *)
Theorem getFile_requests_clean_path_verbatim :
  forall (workspace repoSlug commitOrRef : string) (segments : list string) (w : World),
    Forall clean_segment segments ->
    let request :=
      {| Request.method := GET;
         Request.url := "repositories/" +:+ workspace +:+ "/" +:+ repoSlug
                        +:+ "/src/" +:+ commitOrRef +:+ "/" +:+ join "/" segments;
         Request.payload := None;
         Request.responseType := text |} in
    issued (snd (getFile workspace repoSlug commitOrRef (join "/" segments) w))
    = issued w ++ [request]
    /\ issued (snd (getFile workspace repoSlug commitOrRef ("/" +:+ join "/" segments) w))
       = issued w ++ [request].
Proof.
  intros workspace repoSlug commitOrRef segments w Hclean request. subst request.
  destruct (posix_resolve_root_verbatim segments Hclean) as [Hrelative Habsolute].
  rewrite !getFile_issued. unfold file_url. cbv zeta.
  now rewrite Hrelative, Habsolute.
Qed.

(** ** Code search: what the query can put into the URL *)

Lemma form_safe_hex_digits (c : ascii) :
  form_safe (hex_digit (N_of_ascii c / 16)) = true
  /\ form_safe (hex_digit (N_of_ascii c mod 16)) = true.
Proof. destruct c as [[] [] [] [] [] [] [] []]; split; reflexivity. Qed.

Lemma form_urlencode_alphabet (s : string) (c : ascii) :
  contains c (form_urlencode s) = true ->
  form_safe c = true \/ c = "+"%char \/ c = "%"%char.
Proof.
  induction s as [|a s IH]; cbn [form_urlencode contains]; [discriminate|].
  destruct (form_safe a) eqn:Hsafe; [|destruct (Ascii.eqb a " ")].
  - cbn [contains]. intros [Hhere|Hrest]%orb_true_iff; [|now apply IH].
    apply Ascii.eqb_eq in Hhere as <-. now left.
  - cbn [contains]. intros [Hhere|Hrest]%orb_true_iff; [|now apply IH].
    apply Ascii.eqb_eq in Hhere as <-. right. now left.
  - destruct (form_safe_hex_digits a) as [Hhigh Hlow]. cbn [contains].
    intros [Hhere|[Hhere|[Hhere|Hrest]%orb_true_iff]%orb_true_iff]%orb_true_iff;
      [| | |now apply IH].
    + apply Ascii.eqb_eq in Hhere as <-. right. now right.
    + apply Ascii.eqb_eq in Hhere as <-. now left.
    + apply Ascii.eqb_eq in Hhere as <-. now left.
Qed.

(** X18. The query of a code search reaches the URL form-encoded: between
    [search_query=] and [&fields=] stand only letters, digits and the
    characters [* - . _ + %], so a query cannot end its parameter or add
    another one ([&], [=], [#], a space and the like never appear). *)
Theorem codeSearch_query_cannot_inject :
  forall (workspace query : string),
    code_search_url workspace query None
    = "workspaces/" +:+ workspace +:+ "/search/code?search_query=" +:+ form_urlencode query
      +:+ "&fields=%2Bvalues.file.commit.repository"
    /\ (forall c : ascii,
          contains c (form_urlencode query) = true ->
          form_safe c = true \/ c = "+"%char \/ c = "%"%char)
    /\ contains "&" (form_urlencode query) = false
    /\ contains "=" (form_urlencode query) = false
    /\ contains "#" (form_urlencode query) = false
    /\ contains " " (form_urlencode query) = false.
Proof.
  intros workspace query.
  split; [apply code_search_url_first|].
  split; [intros c; apply form_urlencode_alphabet|].
  repeat split.
  all: match goal with
       | |- contains ?c _ = false =>
           destruct (contains c (form_urlencode query)) eqn:Hin; [|reflexivity];
           apply form_urlencode_alphabet in Hin as [Hin|[Hin|Hin]]; discriminate Hin
       end.
Qed.

(** ** The further properties at sample inputs *)

(** X1 on a first page followed by a 500. *)
Lemma pagination_failure_on_second_page :
  let first := Sample.envelope [JString "r1"] 1 (Some "https://api.bitbucket.org/2.0/next") in
  let repoUrl := "repositories/acme?q=project.key=" +:+ dquote +:+ "PRJ" +:+ dquote in
  let searchUrl :=
    "workspaces/acme/search/code?search_query=needle&fields=%2Bvalues.file.commit.repository" in
  getRepositoriesByProject 2 "acme" "PRJ" None
    (Sample.world [Fulfil (Sample.ok (BRepositories first)); Reject (Sample.status 500)])
  = (Rejected (Sample.status 500),
     {| pending := [];
        issued := [get_request repoUrl; get_request (repoUrl +:+ "&page=2")] |})
  /\ codeSearch 2 "acme" "needle" None
       (Sample.world [Fulfil (Sample.ok (BCodeSearch first)); Reject (Sample.status 500)])
     = (Rejected (Sample.status 500),
        {| pending := [];
           issued := [get_request searchUrl; get_request (searchUrl +:+ "&page=2")] |}).
Proof.
  intros first repoUrl searchUrl.
  exact (pagination_failure_abandons_pages "acme" "PRJ" "needle" None
           [first] [Sample.ok (BRepositories first)]
           [first] [Sample.ok (BCodeSearch first)]
           (Sample.status 500) [] [] 2
           ltac:(repeat constructor) ltac:(repeat constructor)
           ltac:(repeat constructor) ltac:(repeat constructor)
           ltac:(simpl; lia) ltac:(simpl; lia)).
Defined.


(** X3 on a page whose [next] is the empty string, with a page behind it. *)
Lemma pagination_stops_on_blank_next :
  getRepositoriesByProject 5 "acme" "PRJ" None
    (Sample.world [Fulfil (Sample.ok (BRepositories Scenario.blank_next));
                   Fulfil (Sample.ok (BRepositories Scenario.last_page))])
  = (Resolved [JString "r1"],
     {| pending := [Fulfil (Sample.ok (BRepositories Scenario.last_page))];
        issued := [get_request ("repositories/acme?q=project.key=" +:+ dquote +:+ "PRJ"
                                +:+ dquote)] |})
  /\ codeSearch 5 "acme" "needle" None
       (Sample.world [Fulfil (Sample.ok (BCodeSearch Scenario.blank_next));
                      Fulfil (Sample.ok (BRepositories Scenario.last_page))])
     = (Resolved [JString "r1"],
        {| pending := [Fulfil (Sample.ok (BRepositories Scenario.last_page))];
           issued := [get_request
                        ("workspaces/acme/search/code?search_query=needle"
                         +:+ "&fields=%2Bvalues.file.commit.repository")] |}).
Proof.
  exact (empty_next_ends_pagination "acme" "PRJ" "needle" None
           (Sample.ok (BRepositories Scenario.blank_next)) Scenario.blank_next
           (Sample.ok (BCodeSearch Scenario.blank_next)) Scenario.blank_next
           [Fulfil (Sample.ok (BRepositories Scenario.last_page))] [] 4
           eq_refl eq_refl eq_refl eq_refl).
Defined.

(** X4 on a page numbered -1 and on a page without a number, each linking
    on and followed by a last page. *)
Lemma pagination_repeats_after_page_minus_one :
  let repoRequest :=
    get_request ("repositories/acme?q=project.key=" +:+ dquote +:+ "PRJ" +:+ dquote) in
  let searchRequest :=
    get_request ("workspaces/acme/search/code?search_query=needle"
                 +:+ "&fields=%2Bvalues.file.commit.repository") in
  getRepositoriesByProject 2 "acme" "PRJ" None
    (Sample.world [Fulfil (Sample.ok (BRepositories Scenario.unnumbered));
                   Fulfil (Sample.ok (BRepositories Scenario.last_page))])
  = (Resolved [JString "r1"; JString "r9"],
     {| pending := []; issued := [repoRequest; repoRequest] |})
  /\ codeSearch 2 "acme" "needle" None
       (Sample.world [Fulfil (Sample.ok (BCodeSearch Scenario.numberless));
                      Fulfil (Sample.ok (BCodeSearch Scenario.last_page))])
     = (Resolved [JString "r1"; JString "r9"],
        {| pending := []; issued := [searchRequest; searchRequest] |}).
Proof.
  intros repoRequest searchRequest.
  exact (page_minus_one_repeats_first_request "acme" "PRJ" "needle"
           (Sample.ok (BRepositories Scenario.unnumbered))
           (Sample.ok (BRepositories Scenario.last_page))
           Scenario.unnumbered Scenario.last_page
           (Sample.ok (BCodeSearch Scenario.numberless))
           (Sample.ok (BCodeSearch Scenario.last_page))
           Scenario.numberless Scenario.last_page
           [] [] 0 eq_refl eq_refl eq_refl eq_refl
           eq_refl (or_introl eq_refl) eq_refl (or_intror eq_refl) eq_refl eq_refl).
Defined.

(** X7 on the repository with OTHER and TOKEN: a key that is not listed, and
    TOKEN with a DELETE that is answered 204 and one that is answered 500. *)
Lemma deleteRepoVariable_null_on_sample_listing :
  let listing := Scenario.listing [Scenario.other; Scenario.token] in
  let deleted :=
    {| Response.statusCode := 204; Response.headers := ∅; Response.body := BText "" |} in
  fst (deleteRepoVariable "acme" "site" "FRESH" (Sample.world [Fulfil listing]))
  = Resolved None
  /\ fst (deleteRepoVariable "acme" "site" "TOKEN"
            (Sample.world [Fulfil listing; Fulfil deleted]))
     = Resolved (Some deleted)
  /\ fst (deleteRepoVariable "acme" "site" "TOKEN"
            (Sample.world [Fulfil listing; Reject (Sample.status 500)]))
     = Rejected (Sample.status 500).
Proof.
  intros listing deleted.
  destruct (deleteRepoVariable_null_iff_absent "acme" "site" "FRESH" listing _ [] []
              eq_refl) as [[_ Hnull] _].
  destruct (deleteRepoVariable_null_iff_absent "acme" "site" "TOKEN" listing _ [] []
              eq_refl) as [_ Hpresent].
  destruct (Hpresent [Scenario.other] Scenario.token [] eq_refl eq_refl
              ltac:(intros u [<-|[]]; discriminate)) as [Hdeleted Hfailed].
  split; [|split].
  - apply Hnull. intros v [<-|[<-|[]]]; discriminate.
  - exact (f_equal fst (Hdeleted deleted)).
  - exact (f_equal fst (Hfailed (Sample.status 500))).
Defined.

(** X8 on a repository with OTHER, where TOKEN is set twice. *)
Lemma setRepoVariable_twice_on_sample_repository :
  let w := Sample.world [Fulfil (Scenario.listing [Scenario.other]);
                         Fulfil (Sample.ok (BVariable Scenario.token));
                         Fulfil (Scenario.listing [Scenario.other; Scenario.token])] in
  fst (setRepoVariable "acme" "site" "TOKEN" "one" w) = Resolved Scenario.token
  /\ map (fun rq => (Request.method rq, Request.url rq))
         (issued (snd ((first <- setRepoVariable "acme" "site" "TOKEN" "one" ;;
                        setRepoVariable "acme" "site" "TOKEN" "two") w)))
     = [(GET, "repositories/acme/site/pipelines_config/variables");
        (POST, "repositories/acme/site/pipelines_config/variables");
        (GET, "repositories/acme/site/pipelines_config/variables");
        (PUT, "repositories/acme/site/pipelines_config/variables/{u1}")].
Proof.
  intros w.
  destruct (setRepoVariable_twice_creates_then_updates "acme" "site" "TOKEN" "one" "two"
              (Scenario.listing [Scenario.other])
              (Sample.ok (BVariable Scenario.token))
              (Scenario.listing [Scenario.other; Scenario.token])
              _ _ Scenario.token [] [] eq_refl
              ltac:(intros v [<-|[]]; discriminate)
              eq_refl eq_refl eq_refl eq_refl)
    as [Hfirst Hissued].
  split; [exact Hfirst|].
  exact (f_equal (map (fun rq => (Request.method rq, Request.url rq))) Hissued).
Defined.

(** X9 on a failing user lookup and on a failing reviewer lookup. *)
Lemma createPullRequest_on_failing_lookups :
  createPullRequest "acme" "site" "Fix" "feature" None
    (Sample.world [Reject (Sample.status 401)])
  = (Rejected (Sample.status 401), {| pending := []; issued := [get_request "user"] |})
  /\ createPullRequest "acme" "site" "Fix" "feature" None
       (Sample.world [Fulfil (Sample.ok (BUser Sample.me)); Reject (Sample.status 403)])
     = (Rejected (Sample.status 403),
        {| pending := [];
           issued := [get_request "user";
                      get_request "repositories/acme/site/effective-default-reviewers"] |}).
Proof.
  destruct (createPullRequest_needs_both_lookups "acme" "site" "Fix" "feature" None
              (Sample.ok (BUser Sample.me)) Sample.me (Sample.status 401) [] [] eq_refl)
    as [Huser _].
  destruct (createPullRequest_needs_both_lookups "acme" "site" "Fix" "feature" None
              (Sample.ok (BUser Sample.me)) Sample.me (Sample.status 403) [] [] eq_refl)
    as [_ Hreviewers].
  split; [exact Huser|exact Hreviewers].
Defined.

(** X12 on a 404 and on a 500. *)
Lemma getFile_null_on_sample_404 :
  fst (getFile "acme" "site" "main" "README.md" (Sample.world [Reject (Sample.status 404)]))
  = Resolved None
  /\ fst (getFile "acme" "site" "main" "README.md" (Sample.world [Reject (Sample.status 500)]))
     <> Resolved None.
Proof.
  split.
  - apply (proj1 (getFile_null_means_404 "acme" "site" "main" "README.md"
                    (Sample.world [Reject (Sample.status 404)]))).
    eexists _, _, _. repeat split.
  - intros Hnull.
    apply (proj1 (getFile_null_means_404 "acme" "site" "main" "README.md"
                    (Sample.world [Reject (Sample.status 500)]))) in Hnull
      as (err & response & rest & [= <- _] & [= <-] & Hstatus).
    discriminate Hstatus.
Defined.

(** X13 on a [Location] that ends in [/commit/abc123]. *)
Lemma commit_hash_of_sample_location_has_no_slash :
  contains "/" "abc123" = false.
Proof.
  apply (commit_hash_has_no_slash "acme" "site" "README.md" "# Readme" None None None
           (Sample.world
              [Fulfil (Sample.created
                         "https://api.bitbucket.org/2.0/repositories/acme/site/commit/abc123")])
           "abc123").
  left. reflexivity.
Defined.

(** X17 on [docs/README.md], written with and without a leading slash. *)
Lemma getFile_on_clean_sample_path :
  let request :=
    {| Request.method := GET;
       Request.url := "repositories/acme/site/src/main/docs/README.md";
       Request.payload := None;
       Request.responseType := text |} in
  issued (snd (getFile "acme" "site" "main" "docs/README.md" (Sample.world [])))
  = [request]
  /\ issued (snd (getFile "acme" "site" "main" "/docs/README.md" (Sample.world [])))
     = [request].
Proof.
  intros request.
  refine (getFile_requests_clean_path_verbatim "acme" "site" "main" ["docs"; "README.md"]
            (Sample.world []) _).
  repeat constructor; discriminate.
Defined.

(** X18 on a query with an ampersand, an equals sign and a space. *)
Lemma codeSearch_encodes_sample_query :
  form_urlencode "a&b=c d" = "a%26b%3Dc+d"
  /\ (form_safe "%" = true \/ "%"%char = "+"%char \/ "%"%char = "%"%char).
Proof.
  split; [reflexivity|].
  exact (proj1 (proj2 (codeSearch_query_cannot_inject "acme" "a&b=c d")) "%"%char eq_refl).
Defined.
